(** * Reachability monitor (src/device_monitor.py): a shallow embedding

    This file embeds the fleet monitoring loop of [device_monitor.py]:
    the paginated device fetch, the bulk prober ([fping_batch]) with its
    text parser, the single-address fallback prober ([fallback_ping]),
    the grouping of devices by address, the change detection of
    [monitor_cycle_async] and the PATCH requests of [update_device_batch].

    Modelling conventions.
    - Text is Stdlib [string] over ASCII; Python's [str.isspace] and the
      regex class [\s] are modelled on ASCII (codes 9-13 and 28-32), [\d]
      as ['0'..'9'].
    - Python dicts are stdpp [gmap]s.  Python iterates a dict in insertion
      order while [map_to_list] has its own order; the order only decides
      the order of log lines and of the concurrent PATCH tasks, never which
      pairs are produced.
    - [float(s)] is kept as the decimal literal [s] it was applied to
      (binary64 rounding is not modelled); a literal [float] rejects makes
      the Python code raise [ValueError], which the model follows.
    - Subprocesses and HTTP calls are inputs: their outcome (output text,
      exit status, timeout, raised exception, page content) is an argument
      of the embedded function. *)

From Stdlib Require Import String Ascii ZArith Lia.
From stdpp Require Import base list gmap strings pretty.

Open Scope string_scope.
Open Scope list_scope.
Open Scope Z_scope.

(* ------------------------------------------------------------------ *)
(** ** Python text helpers *)

Module Py.

Definition is_space (c : ascii) : bool :=
  let n := nat_of_ascii c in
  ((9 <=? n) && (n <=? 13))%nat || ((28 <=? n) && (n <=? 32))%nat.

Definition is_digit (c : ascii) : bool :=
  let n := nat_of_ascii c in ((48 <=? n) && (n <=? 57))%nat.

(** the regex character class [[\d.]] *)
Definition is_num_char (c : ascii) : bool :=
  is_digit c || Ascii.eqb c ".".

Fixpoint lstrip (s : string) : string :=
  match s with
  | EmptyString => EmptyString
  | String c s' => if is_space c then lstrip s' else s
  end.

Fixpoint rstrip (s : string) : string :=
  match s with
  | EmptyString => EmptyString
  | String c s' =>
      let r := rstrip s' in
      if is_space c && String.eqb r "" then "" else String c r
  end.

(** [s.strip()] *)
Definition strip (s : string) : string := lstrip (rstrip s).

(** [sep in s] for a one-character [sep] *)
Fixpoint contains (sep : ascii) (s : string) : bool :=
  match s with
  | EmptyString => false
  | String c s' => Ascii.eqb c sep || contains sep s'
  end.

(** [s.split(sep)] for a one-character [sep] *)
Fixpoint split (sep : ascii) (s : string) : list string :=
  match s with
  | EmptyString => [""]
  | String c s' =>
      if Ascii.eqb c sep then "" :: split sep s'
      else match split sep s' with
           | w :: ws => String c w :: ws
           | [] => [String c ""]
           end
  end.

(** [s.split(sep)[0]] *)
Fixpoint split_first (sep : ascii) (s : string) : string :=
  match s with
  | EmptyString => EmptyString
  | String c s' => if Ascii.eqb c sep then "" else String c (split_first sep s')
  end.

Definition digit_value (c : ascii) : Z := Z.of_nat (nat_of_ascii c) - 48.

(** [int(s)] on a string of ASCII digits *)
Fixpoint int_acc (acc : Z) (s : string) : Z :=
  match s with
  | EmptyString => acc
  | String c s' => int_acc (10 * acc + digit_value c) s'
  end.
Definition int (s : string) : Z := int_acc 0 s.

Fixpoint count_chars (p : ascii -> bool) (s : string) : nat :=
  match s with
  | EmptyString => 0
  | String c s' => if p c then S (count_chars p s') else count_chars p s'
  end.

(** [float(s)] on a string of the class [[\d.]]: it parses iff there is at
    least one digit and at most one point ("1", "1.", ".5", "1.5");
    otherwise ([".", "1.2.3"]) it raises [ValueError], here [None]. *)
Definition float (s : string) : option string :=
  if ((1 <=? count_chars is_digit s) && (count_chars (fun c => Ascii.eqb c ".") s <=? 1))%nat
  then Some s else None.

(** every character satisfies [p] *)
Fixpoint all_chars (p : ascii -> bool) (s : string) : bool :=
  match s with
  | EmptyString => true
  | String c s' => p c && all_chars p s'
  end.

End Py.

(* ------------------------------------------------------------------ *)
(** ** The regular expressions of the parsers

    A pattern is embedded as a matcher at one position: it returns the
    first group of the match starting there, if any.  [re.search] tries
    the positions from left to right. *)

Module Re.
Import Py.

Fixpoint search (at_pos : string -> option string) (s : string) : option string :=
  match at_pos s with
  | Some g => Some g
  | None =>
      match s with
      | EmptyString => None
      | String _ s' => search at_pos s'
      end
  end.

(** [r'(\d+)%'] at one position.  The greedy [\d+] never backtracks
    usefully: a shorter run is followed by a digit, not by [%]. *)
Fixpoint digits_pct (s : string) : option string :=
  match s with
  | EmptyString => None
  | String c s' =>
      if is_digit c then
        match s' with
        | String d _ =>
            if Ascii.eqb d "%" then Some (String c "")
            else option_map (String c) (digits_pct s')
        | EmptyString => None
        end
      else None
  end.

(** a literal prefix *)
Fixpoint strip_lit (lit s : string) : option string :=
  match lit with
  | EmptyString => Some s
  | String l lit' =>
      match s with
      | String c s' => if Ascii.eqb c l then strip_lit lit' s' else None
      | EmptyString => None
      end
  end.

(** [\s*], greedy; it is always followed by a character outside [\s]
    in the patterns below, so the greedy choice is the only one. *)
Fixpoint drop_ws (s : string) : string :=
  match s with
  | String c s' => if is_space c then drop_ws s' else s
  | EmptyString => EmptyString
  end.

(** [[\d.]+] greedy: the maximal run and the rest.  It is always followed
    by ['/'], outside the class, so the greedy choice is the only one. *)
Fixpoint span_num (s : string) : string * string :=
  match s with
  | String c s' =>
      if is_num_char c then let '(a, r) := span_num s' in (String c a, r)
      else ("", s)
  | EmptyString => ("", "")
  end.

Definition slash_then (s : string) : option string :=
  match s with
  | String c r => if Ascii.eqb c "/" then Some r else None
  | EmptyString => None
  end.

(** [\s*[\d.]+/([\d.]+)/], the part of both latency patterns after ['='] *)
Definition triple_tail (s : string) : option string :=
  let '(a, r1) := span_num (drop_ws s) in
  if String.eqb a "" then None else
  match slash_then r1 with
  | None => None
  | Some r2 =>
      let '(b, r3) := span_num r2 in
      if String.eqb b "" then None else
      match slash_then r3 with
      | Some _ => Some b
      | None => None
      end
  end.

(** [r'min/avg/max\s*=\s*[\d.]+/([\d.]+)/'] (fping) at one position *)
Definition fping_latency_at (s : string) : option string :=
  match strip_lit "min/avg/max" s with
  | None => None
  | Some r =>
      match drop_ws r with
      | String c r' => if Ascii.eqb c "=" then triple_tail r' else None
      | EmptyString => None
      end
  end.

(** [.*?=] followed by [triple_tail]: the lazy [.*?] first tries to stop
    at each ['='] in turn and never crosses a newline. *)
Fixpoint lazy_eq_tail (s : string) : option string :=
  match s with
  | EmptyString => None
  | String c s' =>
      match (if Ascii.eqb c "=" then triple_tail s' else None) with
      | Some g => Some g
      | None => if Ascii.eqb c (ascii_of_nat 10) then None else lazy_eq_tail s'
      end
  end.

(** [r'min/avg/max.*?=\s*[\d.]+/([\d.]+)/'] (ping) at one position *)
Definition ping_latency_at (s : string) : option string :=
  match strip_lit "min/avg/max" s with
  | None => None
  | Some r => lazy_eq_tail r
  end.

End Re.

(* ------------------------------------------------------------------ *)
(** ** Data model *)

(** [PING_COUNT], [PING_TIMEOUT], [BATCH_SIZE] and the page size of
    [fetch_all_devices], at their defaults. *)
Definition PING_COUNT : Z := 3.
Definition PING_TIMEOUT : Z := 2000.
Definition BATCH_SIZE : nat := 500.
Definition NETBOX_URL : string := "http://localhost:8000".

(** [@dataclass DeviceInfo]; [current_reachable] is the tri-state flag *)
Record DeviceInfo := {
  id : Z;
  name : string;
  ip_address : string;
  current_reachable : option bool
}.

(** [@dataclass PingResult] *)
Record PingResult := {
  pr_ip_address : string;
  is_reachable : bool;
  latency_ms : option string
}.

#[global] Instance DeviceInfo_eq_dec : EqDecision DeviceInfo.
Proof. solve_decision. Defined.
#[global] Instance PingResult_eq_dec : EqDecision PingResult.
Proof. solve_decision. Defined.

(** [PingResult(ip_address=ip, is_reachable=False)] *)
Definition unreachable (ip : string) : PingResult :=
  {| pr_ip_address := ip; is_reachable := false; latency_ms := None |}.

(* ------------------------------------------------------------------ *)
(** ** Bulk prober: [fping_batch] *)

Module Fping.
Import Py.

(** How the [subprocess.run] call of [fping] ends. *)
Inductive Outcome :=
  | Completed (stderr : string)      (** the process exited; its stderr *)
  | TimedOut (partial : string)      (** [subprocess.TimeoutExpired], with
                                          whatever the tool had printed *)
  | Raised.                          (** any other exception *)

(** One iteration of the parse loop (lines 122-150).  [None]: the line is
    skipped, by the [continue] guard or because the body raised (only
    [float(...)] can raise there) and the [except] logged it. *)
Definition parse_line (line : string) : option PingResult :=
  if String.eqb line "" || negb (contains ":" line) then None else
  let ip := strip (split_first ":" line) in
  let is_reachable :=
    match Re.search Re.digits_pct line with
    | Some loss => Z.ltb (int loss) 100
    | None => false
    end in
  match Re.search Re.fping_latency_at line with
  | None => Some {| pr_ip_address := ip; is_reachable := is_reachable; latency_ms := None |}
  | Some g =>
      match float g with
      | Some l => Some {| pr_ip_address := ip; is_reachable := is_reachable; latency_ms := Some l |}
      | None => None
      end
  end.

(** The summary line fping prints for one address in quiet mode (the
    comment at lines 118-119):
    ["IP : xmt/rcv/%loss = 3/3/0%, min/avg/max = 0.12/0.15/0.18"] or
    ["IP : xmt/rcv/%loss = 3/0/100%"]. *)
Definition summary_line (ip xmt rcv loss : string) (triple : option (string * string * string))
    : string :=
  ip +:+ " : xmt/rcv/%loss = " +:+ xmt +:+ "/" +:+ rcv +:+ "/" +:+ loss +:+ "%" +:+
  match triple with
  | Some (mn, avg, mx) => ", min/avg/max = " +:+ mn +:+ "/" +:+ avg +:+ "/" +:+ mx
  | None => ""
  end.

(** [for line in output.strip().split('\n'): ... results[ip] = PingResult(..)] *)
Definition parse_output (output : string) : gmap string PingResult :=
  fold_left (fun results line =>
               match parse_line line with
               | Some r => <[pr_ip_address r := r]> results
               | None => results
               end)
            (split (ascii_of_nat 10) (strip output)) ∅.

(** lines 152-155: every address missing from the parsed output *)
Definition mark_missing (ip_addresses : list string) (results : gmap string PingResult)
    : gmap string PingResult :=
  fold_left (fun results ip =>
               match results !! ip with
               | Some _ => results
               | None => <[ip := unreachable ip]> results
               end) ip_addresses results.

(** both [except] branches: every address of the batch set unreachable *)
Definition all_unreachable (ip_addresses : list string) (results : gmap string PingResult)
    : gmap string PingResult :=
  fold_left (fun results ip => <[ip := unreachable ip]> results) ip_addresses results.

Definition fping_batch (ip_addresses : list string) (o : Outcome) : gmap string PingResult :=
  match ip_addresses with
  | [] => ∅
  | _ =>
      match o with
      | Completed stderr => mark_missing ip_addresses (parse_output stderr)
      | TimedOut _ => all_unreachable ip_addresses ∅
      | Raised => all_unreachable ip_addresses ∅
      end
  end.

End Fping.

(* ------------------------------------------------------------------ *)
(** ** Fallback prober: [fallback_ping] *)

Module Ping.
Import Py.

(** How the [subprocess.run] call of [ping] ends. *)
Inductive Outcome :=
  | Completed (returncode : Z) (stdout : string)
  | Raised.  (** [TimeoutExpired], [FileNotFoundError], ... *)

(** The body of the [try] (lines 172-183); [None] when it raises. *)
Definition try_body (ip_address : string) (o : Outcome) : option PingResult :=
  match o with
  | Raised => None
  | Completed returncode stdout =>
      let is_reachable := Z.eqb returncode 0 in
      if is_reachable then
        match Re.search Re.ping_latency_at stdout with
        | None => Some {| pr_ip_address := ip_address; is_reachable := true; latency_ms := None |}
        | Some g =>
            match float g with
            | Some l => Some {| pr_ip_address := ip_address; is_reachable := true; latency_ms := Some l |}
            | None => None
            end
        end
      else Some {| pr_ip_address := ip_address; is_reachable := false; latency_ms := None |}
  end.

Definition fallback_ping (ip_address : string) (o : Outcome) : PingResult :=
  match try_body ip_address o with
  | Some r => r
  | None => unreachable ip_address
  end.

End Ping.

(* ------------------------------------------------------------------ *)
(** ** Probe phase of [monitor_cycle_async] (lines 299-318) *)

Module Probe.

(** [[l[i:i+n] for i in range(0, len(l), n)]] *)
Fixpoint chunks_fuel (fuel n : nat) (l : list string) : list (list string) :=
  match fuel with
  | O => []
  | S f =>
      match l with
      | [] => []
      | _ => take n l :: chunks_fuel f n (drop n l)
      end
  end.
Definition chunks (n : nat) (l : list string) : list (list string) :=
  chunks_fuel (length l) n l.

(** [fping_out batch] is how the fping call on [batch] ends, [ping_out ip]
    how the ping call on [ip] ends. *)
Definition probe_all (use_fping : bool) (fping_out : list string -> Fping.Outcome)
    (ping_out : string -> Ping.Outcome) (unique_ips : list string)
    : gmap string PingResult :=
  if use_fping then
    (* all_ping_results.update(batch_results): the batch wins *)
    fold_left (fun all_ping_results batch =>
                 Fping.fping_batch batch (fping_out batch) ∪ all_ping_results)
              (chunks BATCH_SIZE unique_ips) ∅
  else
    let results := map (fun ip => Ping.fallback_ping ip (ping_out ip)) unique_ips in
    fold_left (fun all_ping_results r => <[pr_ip_address r := r]> all_ping_results)
              results ∅.

End Probe.

(* ------------------------------------------------------------------ *)
(** ** Inventory fetch: [fetch_all_devices] *)

Module Fetch.

(** One element of the ["results"] array of [GET /api/dcim/devices/].
    [primary_ip4]/[primary_ip6] hold the ["address"] of the nested object
    when it is present; [cf_reachable] is [custom_fields.reachable]. *)
Record DeviceJson := {
  dj_id : Z;
  dj_name : string;
  primary_ip4 : option string;
  primary_ip6 : option string;
  cf_reachable : option bool
}.

(** The outcome of one [session.get]: a response with its status and the
    ["results"] array ([data.get('results', [])]), or an exception
    (transport error, undecodable body). *)
Inductive Response :=
  | HttpResponse (status : Z) (results : list DeviceJson)
  | RequestRaised.

Definition limit : nat := 1000.

(** the body of [for device in results] *)
Definition parse_device (device : DeviceJson) : option DeviceInfo :=
  let primary_ip := match primary_ip4 device with
                    | Some a => Some a
                    | None => primary_ip6 device
                    end in
  match primary_ip with
  | Some address =>
      Some {| id := dj_id device; name := dj_name device;
              ip_address := Py.split_first "/" address;
              current_reachable := cf_reachable device |}
  | None => None
  end.

Section Loop.
(** the inventory service: the response to the request at an offset *)
Variable get_page : nat -> Response.

(** The [while True] loop.  It returns the offsets it requested, in order,
    and the devices it returns; [None] when it has not stopped after
    [fuel] requests. *)
Fixpoint fetch_loop (fuel : nat) (offset : nat) (devices : list DeviceInfo)
    : list nat * option (list DeviceInfo) :=
  match fuel with
  | O => ([], None)
  | S f =>
      match get_page offset with
      | HttpResponse status results =>
          if Z.eqb status 200 then
            let devices := devices ++ omap parse_device results in
            if (length results <? limit)%nat then ([offset], Some devices)
            else let '(reqs, r) := fetch_loop f (offset + limit) devices in
                 (offset :: reqs, r)
          else ([offset], Some devices)
      | RequestRaised => ([offset], Some devices)
      end
  end.

Definition fetch_all_devices (fuel : nat) : list nat * option (list DeviceInfo) :=
  fetch_loop fuel 0 [].

(** the devices a response contributes when it is a successful page *)
Definition page_devices (r : Response) : list DeviceInfo :=
  match r with
  | HttpResponse status results => if Z.eqb status 200 then omap parse_device results else []
  | RequestRaised => []
  end.

(** a successful page no shorter than the page size: the loop goes on
    after it *)
Definition full_page (r : Response) : Prop :=
  match r with
  | HttpResponse status results => status = 200 /\ (limit <= length results)%nat
  | RequestRaised => False
  end.

End Loop.
End Fetch.

(* ------------------------------------------------------------------ *)
(** ** Grouping and change detection (lines 289-337) *)

Module Reconcile.

(** lines 290-294: [ip_to_devices] *)
Definition group_by_ip (devices : list DeviceInfo) : gmap string (list DeviceInfo) :=
  fold_left (fun ip_to_devices device =>
               let l := match ip_to_devices !! ip_address device with
                        | Some l => l
                        | None => []
                        end in
               <[ip_address device := l ++ [device]]> ip_to_devices)
            devices ∅.

(** [device.current_reachable != ping_result.is_reachable]:
    [None != False] and [None != True] are both true in Python. *)
Definition py_ne (current : option bool) (b : bool) : bool :=
  match current with
  | None => true
  | Some c => negb (Bool.eqb c b)
  end.

(** [ip_to_devices.get(ip, [])] *)
Definition group_of (ip_to_devices : gmap string (list DeviceInfo)) (ip : string) : list DeviceInfo :=
  match ip_to_devices !! ip with Some l => l | None => [] end.

(** lines 328-334: [updates_needed] *)
Definition updates_needed (ip_to_devices : gmap string (list DeviceInfo))
    (all_ping_results : gmap string PingResult) : list (DeviceInfo * PingResult) :=
  flat_map (fun '(ip, ping_result) =>
              let group := group_of ip_to_devices ip in
              map (fun device => (device, ping_result))
                  (List.filter (fun device => py_ne (current_reachable device)
                                                    (is_reachable ping_result)) group))
           (map_to_list all_ping_results).

(** the devices at address [a] (a test used in the statements below) *)
Definition at_ip (a : string) (device : DeviceInfo) : bool := String.eqb (ip_address device) a.

(** the reconciler of one cycle, from the fetched devices *)
Definition reconcile (devices : list DeviceInfo) (all_ping_results : gmap string PingResult)
    : list (DeviceInfo * PingResult) :=
  updates_needed (group_by_ip devices) all_ping_results.

End Reconcile.

(* ------------------------------------------------------------------ *)
(** ** Update dispatch: [update_device_batch] *)

Module Dispatch.

#[local] Set Warnings "-register-all".

(** JSON values, as aiohttp serialises the [json=payload] argument *)
Inductive Json :=
  | JBool (b : bool)
  | JNumber (literal : string)
  | JString (s : string)
  | JNull
  | JObject (fields : list (string * Json)).

Record PatchRequest := {
  req_url : string;
  req_body : Json
}.

(** [f"{NETBOX_URL}/api/dcim/devices/{device.id}/"] *)
Definition device_url (device_id : Z) : string :=
  NETBOX_URL +:+ "/api/dcim/devices/" +:+ pretty device_id +:+ "/".

(** the request [update_single] sends (lines 242-251) *)
Definition update_single (device : DeviceInfo) (ping_result : PingResult) : PatchRequest :=
  {| req_url := device_url (id device);
     req_body := JObject [("custom_fields", JObject [("reachable", JBool (is_reachable ping_result))])] |}.

(** [tasks = [update_single(device, result) for device, result in updates]]:
    the requests issued, one task each *)
Definition update_device_batch (updates : list (DeviceInfo * PingResult)) : list PatchRequest :=
  map (fun '(device, result) => update_single device result) updates.

(** a field of a JSON object *)
Fixpoint assoc (k : string) (fields : list (string * Json)) : option Json :=
  match fields with
  | [] => None
  | (k', v) :: fs => if String.eqb k k' then Some v else assoc k fs
  end.

(** the keys of the ["custom_fields"] map of a request body *)
Definition custom_field_keys (body : Json) : list string :=
  match body with
  | JObject fields =>
      match assoc "custom_fields" fields with
      | Some (JObject cfs) => map fst cfs
      | _ => []
      end
  | _ => []
  end.

End Dispatch.

(* ------------------------------------------------------------------ *)
(** ** The inventory service

    The inventory service is an external collaborator.  This is a model
    of what its [PATCH] does to the device a later fetch returns: the
    request addressed to the device's URL merges the boolean
    [custom_fields.reachable] into the stored record. *)

Module Inventory.
Import Dispatch.

Definition apply_patch (device : DeviceInfo) (req : PatchRequest) : DeviceInfo :=
  if String.eqb (req_url req) (device_url (id device)) then
    match req_body req with
    | JObject fields =>
        match assoc "custom_fields" fields with
        | Some (JObject cfs) =>
            match assoc "reachable" cfs with
            | Some (JBool b) =>
                {| id := id device; name := name device; ip_address := ip_address device;
                   current_reachable := Some b |}
            | _ => device
            end
        | _ => device
        end
    | _ => device
    end
  else device.

(** the records the next fetch returns once every request succeeded *)
Definition after_patches (reqs : list PatchRequest) (devices : list DeviceInfo)
    : list DeviceInfo :=
  map (fun device => fold_left apply_patch reqs device) devices.

End Inventory.

(* ------------------------------------------------------------------ *)
(** ** One monitoring cycle: [monitor_cycle_async] *)

Module Cycle.
Import Reconcile.

(** [unique_ips = list(ip_to_devices.keys())] (line 296): a dict lists its
    keys in the order of first insertion, and line 292 inserts the key
    [device.ip_address] the first time it is met. *)
Definition unique_ips (devices : list DeviceInfo) : list string :=
  fold_left (fun keys device =>
               if decide (ip_address device ∈ keys) then keys
               else keys ++ [ip_address device])
            devices [].

(** Steps 2-4 of the cycle on the fetched devices (lines 286-337): the
    [updates_needed] list.  [if not devices: return] ends the cycle with
    no update. *)
Definition cycle_updates (use_fping : bool) (fping_out : list string -> Fping.Outcome)
    (ping_out : string -> Ping.Outcome) (devices : list DeviceInfo)
    : list (DeviceInfo * PingResult) :=
  match devices with
  | [] => []
  | _ =>
      let ip_to_devices := group_by_ip devices in
      let all_ping_results :=
        Probe.probe_all use_fping fping_out ping_out (unique_ips devices) in
      updates_needed ip_to_devices all_ping_results
  end.

(** The whole cycle: the PATCH requests it sends, or [None] when the
    fetch loop has not stopped after [fuel] requests.  Step 5 runs
    [update_device_batch] only [if updates_needed]. *)
Definition monitor_cycle (use_fping : bool) (get_page : nat -> Fetch.Response) (fuel : nat)
    (fping_out : list string -> Fping.Outcome) (ping_out : string -> Ping.Outcome)
    : option (list Dispatch.PatchRequest) :=
  match snd (Fetch.fetch_all_devices get_page fuel) with
  | None => None
  | Some devices =>
      let updates := cycle_updates use_fping fping_out ping_out devices in
      Some (match updates with
            | [] => []
            | _ => Dispatch.update_device_batch updates
            end)
  end.

(** How one [session.patch] of [update_single] ends. *)
Inductive PatchOutcome :=
  | PatchResponse (status : Z)
  | PatchRaised.

(** the boolean [update_single] returns (lines 253-264) *)
Definition update_single_result (o : PatchOutcome) : bool :=
  match o with
  | PatchResponse status => Z.eqb status 200
  | PatchRaised => false
  end.

(** [sum(1 for r in results if r)] over the outcomes of the tasks, in the
    order [asyncio.gather] returns them *)
Definition updated_count (outcomes : list PatchOutcome) : nat :=
  length (List.filter (fun r => r) (map update_single_result outcomes)).

End Cycle.

(* ------------------------------------------------------------------ *)
(** ** Concrete inputs *)

Module Sample.

Definition nl : string := String (ascii_of_nat 10) "".

(** fping's stderr for a batch of three addresses that reports two *)
Definition fping_two_of_three : string :=
  "10.0.0.1 : xmt/rcv/%loss = 3/3/0%, min/avg/max = 0.12/0.15/0.18" +:+ nl +:+
  "10.0.0.2 : xmt/rcv/%loss = 3/0/100%" +:+ nl.

(** fping's summary line for an IPv6 address *)
Definition fping_ipv6_line : string :=
  "2001:db8::1 : xmt/rcv/%loss = 3/3/0%, min/avg/max = 0.10/0.20/0.30".

(** the summary of a successful Linux [ping] *)
Definition ping_linux_ok : string :=
  "3 packets transmitted, 3 received, 0% packet loss, time 2003ms" +:+ nl +:+
  "rtt min/avg/max/mdev = 0.1/0.2/0.3/0.0 ms".

(** Scenario A: X at 10.0.0.1 last known up, Y at 10.0.0.2 never probed *)
Definition device_x : DeviceInfo :=
  {| id := 1; name := "X"; ip_address := "10.0.0.1"; current_reachable := Some true |}.
Definition device_y : DeviceInfo :=
  {| id := 2; name := "Y"; ip_address := "10.0.0.2"; current_reachable := None |}.
Definition probe_a : gmap string PingResult :=
  <["10.0.0.1" := {| pr_ip_address := "10.0.0.1"; is_reachable := true; latency_ms := Some "1.2" |}]>
  (<["10.0.0.2" := unreachable "10.0.0.2"]> ∅).

(** a device record of the inventory, and an inventory of one full page
    followed by a failing request *)
Definition device_json : Fetch.DeviceJson :=
  {| Fetch.dj_id := 1; Fetch.dj_name := "X"; Fetch.primary_ip4 := Some "10.0.0.1/24";
     Fetch.primary_ip6 := None; Fetch.cf_reachable := Some true |}.
Definition inventory_then_500 (offset : nat) : Fetch.Response :=
  if Nat.eqb offset 0 then Fetch.HttpResponse 200 (repeat device_json 1000)
  else Fetch.HttpResponse 500 [].

(** an inventory of one short page holding [device_json] *)
Definition inventory_one (offset : nat) : Fetch.Response :=
  Fetch.HttpResponse 200 [device_json].

End Sample.

(* ================================================================== *)
(** * Properties *)

(* ------------------------------------------------------------------ *)
(** ** The bulk prober *)

Section FpingBatch.
Import Fping.

Lemma all_unreachable_lookup (ips : list string) (m : gmap string PingResult) (ip : string) :
  all_unreachable ips m !! ip =
    if decide (ip ∈ ips) then Some (unreachable ip) else m !! ip.
Proof.
  revert m. induction ips as [|a ips IH]; intros m; unfold all_unreachable in *; cbn [fold_left].
  - case_decide; [set_solver | done].
  - rewrite IH. rewrite lookup_insert.
    repeat case_decide; subst; set_solver.
Qed.

Lemma mark_missing_lookup (ips : list string) (m : gmap string PingResult) (ip : string) :
  mark_missing ips m !! ip =
    match m !! ip with
    | Some r => Some r
    | None => if decide (ip ∈ ips) then Some (unreachable ip) else None
    end.
Proof.
  revert m. induction ips as [|a ips IH]; intros m; unfold mark_missing in *; cbn [fold_left].
  - destruct (m !! ip); [done|]. case_decide; [set_solver | done].
  - destruct (m !! a) eqn:Ha; rewrite IH.
    + destruct (m !! ip) eqn:Hip; [done|].
      assert (a <> ip) by congruence.
      repeat case_decide; set_solver.
    + rewrite lookup_insert.
      destruct (decide (a = ip)) as [->|Hne].
      * rewrite Ha. destruct (decide (ip ∈ ips)), (decide (ip ∈ ip :: ips)); set_solver.
      * destruct (m !! ip); [done|].
        destruct (decide (ip ∈ ips)), (decide (ip ∈ a :: ips)); set_solver.
Qed.

End FpingBatch.

(** C3. A batch whose fping call times out: every address of the batch is
    classified unreachable with no latency, whatever the tool had printed,
    and the batch result holds no other address. *)
Theorem fping_batch_timeout_fail_closed (batch : list string) (partial ip : string) :
  Fping.fping_batch batch (Fping.TimedOut partial) !! ip =
    if decide (ip ∈ batch) then Some (unreachable ip) else None.
Proof.
  destruct batch as [|a l].
  - cbn. rewrite lookup_empty. case_decide; set_solver.
  - unfold Fping.fping_batch. rewrite all_unreachable_lookup, lookup_empty. done.
Qed.

(** C4. An address of the batch that no parsed summary line reports still
    has an entry in the batch result: unreachable, with no latency. *)
Theorem fping_batch_silence_is_failure (batch : list string) (stderr ip : string) :
  ip ∈ batch -> Fping.parse_output stderr !! ip = None ->
  Fping.fping_batch batch (Fping.Completed stderr) !! ip = Some (unreachable ip).
Proof.
  intros Hin Hnone. destruct batch as [|a l]; [set_solver|].
  unfold Fping.fping_batch. rewrite mark_missing_lookup, Hnone.
  by rewrite decide_True.
Qed.

Lemma fping_batch_silence_is_failure_witness :
  "10.0.0.3" ∈ ["10.0.0.1"; "10.0.0.2"; "10.0.0.3"] /\
  Fping.parse_output Sample.fping_two_of_three !! "10.0.0.3" = None /\
  Fping.fping_batch ["10.0.0.1"; "10.0.0.2"; "10.0.0.3"]
    (Fping.Completed Sample.fping_two_of_three) !! "10.0.0.3" = Some (unreachable "10.0.0.3").
Proof.
  split; [apply (bool_decide_unpack _); vm_compute; reflexivity|].
  split; [vm_compute; reflexivity|].
  apply fping_batch_silence_is_failure.
  - apply (bool_decide_unpack _); vm_compute; reflexivity.
  - vm_compute; reflexivity.
Defined.

(* ------------------------------------------------------------------ *)
(** ** Parsing one summary line *)

(** [String.append] is kept folded by [simpl]; these equations unfold it
    one character at a time. *)
Lemma string_app_cons (c : ascii) (s t : string) : String c s +:+ t = String c (s +:+ t).
Proof. reflexivity. Qed.

Lemma string_app_nil (t : string) : "" +:+ t = t.
Proof. reflexivity. Qed.

Section SummaryParse.
Import Py.

Lemma all_chars_impl (p q : ascii -> bool) (s : string) :
  (forall c, p c = true -> q c = true) -> all_chars p s = true -> all_chars q s = true.
Proof.
  intros Hpq. induction s as [|c s IH]; [done|]. cbn [all_chars].
  intros [Hc Hs]%andb_prop. by rewrite (Hpq c Hc), IH.
Qed.

Lemma digit_num_char (c : ascii) : is_digit c = true -> is_num_char c = true.
Proof. unfold is_num_char. intros ->. done. Qed.

Lemma num_char_facts (c : ascii) :
  is_num_char c = true ->
  is_space c = false /\ Ascii.eqb c ":" = false /\ Ascii.eqb c "%" = false /\
  Ascii.eqb c "m" = false.
Proof.
  destruct c as [[] [] [] [] [] [] [] []]; vm_compute; intros H;
    first [discriminate H | repeat split].
Qed.

Lemma search_cons_none (m : string -> option string) (c : ascii) (s : string) :
  m (String c s) = None -> Re.search m (String c s) = Re.search m s.
Proof. intros H. cbn [Re.search]. by rewrite H. Qed.

Lemma search_hit (m : string -> option string) (s g : string) :
  m s = Some g -> Re.search m s = Some g.
Proof. intros H. destruct s; cbn [Re.search]; by rewrite H. Qed.

(** [(\d+)%] does not match inside a run of [[\d.]] that ends before a
    character which is neither a digit nor ['%']. *)
Lemma digits_pct_num_run (w q : string) (c : ascii) :
  all_chars is_num_char w = true -> is_digit c = false -> Ascii.eqb c "%" = false ->
  Re.digits_pct (w +:+ String c q) = None.
Proof.
  intros Hw Hc Hpc. induction w as [|d w IH].
  { rewrite string_app_nil. cbn [Re.digits_pct]. by rewrite Hc. }
  cbn [all_chars] in Hw. apply andb_prop in Hw as [Hd Hw].
  rewrite string_app_cons. cbn [Re.digits_pct].
  destruct (is_digit d); [|done].
  specialize (IH Hw).
  destruct w as [|e w'].
  - rewrite string_app_nil, Hpc. rewrite string_app_nil in IH. by rewrite IH.
  - rewrite string_app_cons.
    cbn [all_chars] in Hw. apply andb_prop in Hw as [He _].
    destruct (num_char_facts e He) as (_ & _ & Hep & _). rewrite Hep.
    rewrite <- string_app_cons, IH; done.
Qed.

Lemma search_num_run (w q : string) (c : ascii) :
  all_chars is_num_char w = true -> is_digit c = false -> Ascii.eqb c "%" = false ->
  Re.search Re.digits_pct (w +:+ String c q) = Re.search Re.digits_pct (String c q).
Proof.
  intros Hw Hc Hpc. induction w as [|d w IH]; [done|].
  rewrite string_app_cons, search_cons_none.
  - apply IH. cbn [all_chars] in Hw. by apply andb_prop in Hw as [_ ?].
  - rewrite <- string_app_cons. by apply digits_pct_num_run.
Qed.

Lemma digits_pct_loss (l tail : string) :
  l <> "" -> all_chars is_digit l = true -> Re.digits_pct (l +:+ String "%" tail) = Some l.
Proof.
  intros Hne Hl. induction l as [|d l IH]; [done|].
  cbn [all_chars] in Hl. apply andb_prop in Hl as [Hd Hl].
  rewrite string_app_cons. cbn [Re.digits_pct]. rewrite Hd.
  destruct l as [|e l'].
  - rewrite string_app_nil. done.
  - rewrite string_app_cons.
    assert (Ascii.eqb e "%" = false) as ->.
    { cbn [all_chars] in Hl. apply andb_prop in Hl as [He _].
      by destruct (num_char_facts e (digit_num_char e He)) as (_ & _ & ? & _). }
    rewrite <- string_app_cons, IH; done.
Qed.

(** the latency pattern starts with ['m'] *)
Lemma search_latency_no_m (p q : string) :
  all_chars (fun c => negb (Ascii.eqb c "m")) p = true ->
  Re.search Re.fping_latency_at (p +:+ q) = Re.search Re.fping_latency_at q.
Proof.
  induction p as [|c p IH]; [done|]. cbn [all_chars].
  intros [Hc Hp]%andb_prop. rewrite string_app_cons, search_cons_none; [by apply IH|].
  unfold Re.fping_latency_at. cbn [Re.strip_lit].
  apply negb_true_iff in Hc. by rewrite Hc.
Qed.

Lemma span_num_run (w q : string) (c : ascii) :
  all_chars is_num_char w = true -> is_num_char c = false ->
  Re.span_num (w +:+ String c q) = (w, String c q).
Proof.
  intros Hw Hc. induction w as [|d w IH].
  - rewrite string_app_nil. cbn [Re.span_num]. by rewrite Hc.
  - cbn [all_chars] in Hw. apply andb_prop in Hw as [Hd Hw].
    rewrite string_app_cons. cbn [Re.span_num]. rewrite Hd, IH; done.
Qed.

Lemma triple_tail_summary (a b c : string) :
  a <> "" -> all_chars is_num_char a = true -> b <> "" -> all_chars is_num_char b = true ->
  Re.triple_tail (String " " (a +:+ String "/" (b +:+ String "/" c))) = Some b.
Proof.
  intros Ha Hna Hb Hnb. unfold Re.triple_tail.
  assert (Re.drop_ws (String " " (a +:+ String "/" (b +:+ String "/" c))) =
          a +:+ String "/" (b +:+ String "/" c)) as ->.
  { destruct a as [|d a']; [done|]. cbn [all_chars] in Hna. apply andb_prop in Hna as [Hd _].
    destruct (num_char_facts d Hd) as (Hs & _).
    rewrite string_app_cons. cbn [Re.drop_ws]. by rewrite Hs. }
  rewrite span_num_run by done.
  apply String.eqb_neq in Ha. rewrite Ha. simpl.
  rewrite span_num_run by done.
  apply String.eqb_neq in Hb. by rewrite Hb.
Qed.

Lemma contains_app_r (sep : ascii) (p q : string) :
  contains sep q = true -> contains sep (p +:+ q) = true.
Proof.
  intros H. induction p as [|c p IH]; [done|].
  rewrite string_app_cons. cbn [contains]. by rewrite IH, orb_true_r.
Qed.

Lemma split_first_app (sep : ascii) (p q : string) :
  all_chars (fun c => negb (Ascii.eqb c sep)) p = true ->
  split_first sep (p +:+ q) = p +:+ split_first sep q.
Proof.
  induction p as [|c p IH]; [done|]. cbn [all_chars].
  intros [Hc Hp]%andb_prop. apply negb_true_iff in Hc.
  rewrite !string_app_cons. cbn [split_first]. by rewrite Hc, IH.
Qed.

Lemma strip_num_space (ip : string) :
  all_chars is_num_char ip = true -> strip (ip +:+ " ") = ip.
Proof.
  intros Hip. unfold strip.
  assert (rstrip (ip +:+ " ") = ip) as ->.
  { induction ip as [|c ip IH]; [done|].
    cbn [all_chars] in Hip. apply andb_prop in Hip as [Hc Hip].
    destruct (num_char_facts c Hc) as (Hs & _).
    rewrite string_app_cons. cbn [rstrip]. by rewrite IH, Hs. }
  destruct ip as [|c ip]; [done|].
  cbn [all_chars] in Hip. apply andb_prop in Hip as [Hc _].
  destruct (num_char_facts c Hc) as (Hs & _). cbn [lstrip]. by rewrite Hs.
Qed.

End SummaryParse.

(** skip the positions of a literal where the pattern does not match *)
Ltac skip_positions :=
  rewrite ?string_app_cons, ?string_app_nil;
  repeat (rewrite search_cons_none by reflexivity).

(** A well-formed IPv4 summary line is read as the comment of the parser
    describes it: the address before [" : "], reachable iff the loss is
    below 100, and the middle value of the min/avg/max triple as latency
    when the triple is printed. *)
Lemma parse_line_summary (ip xmt rcv loss : string) (triple : option (string * string * string)) :
  Py.all_chars Py.is_num_char ip = true ->
  Py.all_chars Py.is_digit xmt = true -> Py.all_chars Py.is_digit rcv = true ->
  loss <> "" -> Py.all_chars Py.is_digit loss = true ->
  match triple with
  | Some (mn, avg, _) =>
      mn <> "" /\ Py.all_chars Py.is_num_char mn = true /\
      avg <> "" /\ Py.all_chars Py.is_num_char avg = true /\ Py.float avg = Some avg
  | None => True
  end ->
  Fping.parse_line (Fping.summary_line ip xmt rcv loss triple) =
    Some {| pr_ip_address := ip;
            is_reachable := Z.ltb (Py.int loss) 100;
            latency_ms := match triple with Some (_, avg, _) => Some avg | None => None end |}.
Proof.
  intros Hip Hx Hr Hl Hnl Ht.
  assert (forall s, Py.all_chars Py.is_digit s = true -> Py.all_chars Py.is_num_char s = true)
    as Hdn by (intros s; apply all_chars_impl, digit_num_char).
  assert (forall s, Py.all_chars Py.is_num_char s = true ->
                    Py.all_chars (fun c => negb (Ascii.eqb c "m")) s = true) as Hnm.
  { intros s. apply all_chars_impl. intros c Hc.
    destruct (num_char_facts c Hc) as (_ & _ & _ & ->). done. }
  set (line := Fping.summary_line ip xmt rcv loss triple).
  assert (String.eqb line "" = false) as H1.
  { subst line. unfold Fping.summary_line. destruct ip; done. }
  assert (Py.contains ":" line = true) as H2.
  { subst line. unfold Fping.summary_line. by apply contains_app_r. }
  assert (Py.split_first ":" line = ip +:+ " ") as H3.
  { subst line. unfold Fping.summary_line. rewrite split_first_app; [done|].
    apply all_chars_impl with (p := Py.is_num_char); [|done].
    intros c Hc. destruct (num_char_facts c Hc) as (_ & -> & _). done. }
  assert (Re.search Re.digits_pct line = Some loss) as H4.
  { subst line. unfold Fping.summary_line.
    destruct triple as [[[mn avg] mx]|]; skip_positions;
      (rewrite search_num_run by (done || auto); skip_positions;
       rewrite search_num_run by (done || auto); skip_positions;
       rewrite search_num_run by (done || auto); skip_positions;
       apply search_hit, digits_pct_loss; done). }
  assert (Re.search Re.fping_latency_at line =
          match triple with Some (_, avg, _) => Some avg | None => None end) as H5.
  { subst line. unfold Fping.summary_line.
    destruct triple as [[[mn avg] mx]|].
    - destruct Ht as (Hmn & Hnmn & Havg & Hnavg & _).
      rewrite search_latency_no_m by auto. skip_positions.
      rewrite search_latency_no_m by auto. skip_positions.
      rewrite search_latency_no_m by auto. skip_positions.
      rewrite search_latency_no_m by auto. skip_positions.
      apply search_hit.
      pose proof (triple_tail_summary mn avg mx Hmn Hnmn Havg Hnavg) as Htt.
      exact Htt.
    - rewrite search_latency_no_m by auto. skip_positions.
      rewrite search_latency_no_m by auto. skip_positions.
      rewrite search_latency_no_m by auto. skip_positions.
      rewrite search_latency_no_m by auto. skip_positions.
      reflexivity. }
  unfold Fping.parse_line. rewrite H1, H2. cbn [orb negb].
  rewrite H3, strip_num_space by done. rewrite H4, H5.
  destruct triple as [[[mn avg] mx]|]; [|done].
  destruct Ht as (_ & _ & _ & _ & ->). done.
Qed.

Lemma parse_line_summary_sample :
  Fping.parse_line (Fping.summary_line "10.0.0.1" "3" "3" "0" (Some ("0.12", "0.15", "0.18"))) =
    Some {| pr_ip_address := "10.0.0.1"; is_reachable := true; latency_ms := Some "0.15" |}.
Proof. apply parse_line_summary; vm_compute; repeat split; discriminate. Defined.

(** C6 (the address of an IPv6 summary line).  The parser takes the text
    before the first [':'] as the address, which cuts an IPv6 address:
    the line of [2001:db8::1], with 0% loss and a min/avg/max triple, is
    stored under ["2001"], and [2001:db8::1] itself ends up unreachable
    with no latency. *)
Theorem fping_batch_ipv6_line :
  Re.search Re.digits_pct Sample.fping_ipv6_line = Some "0" /\
  Re.search Re.fping_latency_at Sample.fping_ipv6_line = Some "0.20" /\
  Fping.parse_line Sample.fping_ipv6_line =
    Some {| pr_ip_address := "2001"; is_reachable := true; latency_ms := Some "0.20" |} /\
  Fping.fping_batch ["2001:db8::1"] (Fping.Completed Sample.fping_ipv6_line) !! "2001:db8::1"
    = Some (unreachable "2001:db8::1").
Proof. repeat split; vm_compute; reflexivity. Qed.

(** C7 (as the code does it).  Any other exception of the fping call sets
    every address of the batch unreachable, with no latency, exactly as a
    timeout does; in fping mode the single-address prober is never
    consulted, so its outcomes do not matter. *)
Theorem fping_batch_error_fail_closed (batch : list string) (ip : string)
    (fping_out : list string -> Fping.Outcome) (ping_out ping_out' : string -> Ping.Outcome)
    (unique_ips : list string) :
  Fping.fping_batch batch Fping.Raised !! ip =
    (if decide (ip ∈ batch) then Some (unreachable ip) else None) /\
  Probe.probe_all true fping_out ping_out unique_ips =
    Probe.probe_all true fping_out ping_out' unique_ips.
Proof.
  split; [|reflexivity].
  destruct batch as [|a l].
  - cbn. rewrite lookup_empty. case_decide; set_solver.
  - unfold Fping.fping_batch. rewrite all_unreachable_lookup, lookup_empty. done.
Qed.

(** C7 refuted: fping raises on the batch of [10.0.0.1] while a single
    ping of it would succeed; the cycle classifies it unreachable, not as
    the fallback prober would. *)
Lemma fping_error_no_fallback :
  Probe.probe_all true (fun _ => Fping.Raised) (fun _ => Ping.Completed 0 Sample.ping_linux_ok)
    ["10.0.0.1"] !! "10.0.0.1" = Some (unreachable "10.0.0.1") /\
  Ping.fallback_ping "10.0.0.1" (Ping.Completed 0 Sample.ping_linux_ok) =
    {| pr_ip_address := "10.0.0.1"; is_reachable := true; latency_ms := Some "0.2" |} /\
  Probe.probe_all true (fun _ => Fping.Raised) (fun _ => Ping.Completed 0 Sample.ping_linux_ok)
    ["10.0.0.1"] !! "10.0.0.1"
    <> Some (Ping.fallback_ping "10.0.0.1" (Ping.Completed 0 Sample.ping_linux_ok)).
Proof.
  split; [vm_compute; reflexivity|].
  split; [vm_compute; reflexivity|].
  vm_compute. intros H. discriminate H.
Qed.

(* ------------------------------------------------------------------ *)
(** ** The fallback prober *)

(** C10. [fallback_ping] always returns a result for its own address;
    when the ping call raises (timeout, missing binary) or the body of the
    [try] raises, the result is unreachable with no latency; a latency is
    only set when ping exited with status 0. *)
Theorem fallback_ping_total (ip : string) (o : Ping.Outcome) :
  pr_ip_address (Ping.fallback_ping ip o) = ip /\
  (o = Ping.Raised -> Ping.fallback_ping ip o = unreachable ip) /\
  (Ping.try_body ip o = None -> Ping.fallback_ping ip o = unreachable ip) /\
  (latency_ms (Ping.fallback_ping ip o) <> None -> exists stdout, o = Ping.Completed 0 stdout).
Proof.
  unfold Ping.fallback_ping.
  destruct (Ping.try_body ip o) as [r|] eqn:Hb.
  - destruct o as [rc out|]; [|discriminate Hb].
    cbn in Hb. destruct (Z.eqb_spec rc 0) as [->|Hne].
    + destruct (Re.search Re.ping_latency_at out) as [g|];
        [destruct (Py.float g)|]; inversion Hb; subst; cbn;
        repeat split; try discriminate; eauto.
    + inversion Hb; subst; cbn. repeat split; try discriminate.
      intros H. by destruct H.
  - repeat split; auto. cbn. intros H. by destruct H.
Qed.

(* ------------------------------------------------------------------ *)
(** ** The update dispatcher *)

(** C1 (as the code does it).  The dispatcher issues one PATCH per pending
    update, in the order of the updates, addressed to that device's URL;
    its body is the custom-field map with the reachability boolean only:
    the latency of the probe result is never part of the body. *)
Theorem update_device_batch_requests (updates : list (DeviceInfo * PingResult)) :
  length (Dispatch.update_device_batch updates) = length updates /\
  forall (i : nat) device ping_result, updates !! i = Some (device, ping_result) ->
    Dispatch.update_device_batch updates !! i =
      Some {| Dispatch.req_url := Dispatch.device_url (id device);
              Dispatch.req_body :=
                Dispatch.JObject [("custom_fields",
                  Dispatch.JObject [("reachable", Dispatch.JBool (is_reachable ping_result))])] |}.
Proof.
  split.
  - unfold Dispatch.update_device_batch. apply length_map.
  - induction updates as [|[d pr] us IH]; intros i device ping_result Hi;
      [discriminate Hi|].
    destruct i as [|i]; cbn in Hi |- *.
    + by inversion Hi.
    + by apply IH.
Qed.

(** C1 refuted: a pending update whose probe result carries a latency of
    1.2 ms; the one request for it sets [reachable] and nothing else. *)
Lemma update_single_omits_latency :
  let device := {| id := 7; name := "X"; ip_address := "10.0.0.1";
                   current_reachable := Some false |} in
  let ping_result := {| pr_ip_address := "10.0.0.1"; is_reachable := true;
                        latency_ms := Some "1.2" |} in
  Dispatch.update_device_batch [(device, ping_result)] = [Dispatch.update_single device ping_result] /\
  Dispatch.custom_field_keys (Dispatch.req_body (Dispatch.update_single device ping_result))
    = ["reachable"].
Proof. split; vm_compute; reflexivity. Qed.

(* ------------------------------------------------------------------ *)
(** ** Grouping and change detection *)

Section Reconciler.
Import Reconcile.

Lemma group_by_ip_fold (devices : list DeviceInfo) (m : gmap string (list DeviceInfo)) (k : string) :
  group_of (fold_left (fun ip_to_devices device =>
               let l := match ip_to_devices !! ip_address device with
                        | Some l => l
                        | None => []
                        end in
               <[ip_address device := l ++ [device]]> ip_to_devices) devices m) k
  = group_of m k ++ List.filter (at_ip k) devices.
Proof.
  revert m. induction devices as [|d ds IH]; intros m; cbn [fold_left List.filter].
  - by rewrite app_nil_r.
  - rewrite IH. unfold group_of at 1, at_ip at 2. rewrite lookup_insert.
    destruct (String.eqb_spec (ip_address d) k) as [<-|Hne].
    + rewrite decide_True by done. unfold group_of. by rewrite <- app_assoc.
    + rewrite decide_False by done. done.
Qed.

Lemma group_by_ip_group (devices : list DeviceInfo) (k : string) :
  group_of (group_by_ip devices) k = List.filter (at_ip k) devices.
Proof. unfold group_by_ip. rewrite group_by_ip_fold. done. Qed.

Lemma updates_needed_In (m : gmap string (list DeviceInfo)) (all_ping_results : gmap string PingResult)
    (device : DeviceInfo) (ping_result : PingResult) :
  In (device, ping_result) (updates_needed m all_ping_results) <->
  exists ip, all_ping_results !! ip = Some ping_result /\ In device (group_of m ip) /\
             py_ne (current_reachable device) (is_reachable ping_result) = true.
Proof.
  unfold updates_needed. rewrite in_flat_map. split.
  - intros [[ip pr] [Hin Hd]]. apply in_map_iff in Hd as [d' [Heq Hd']].
    inversion Heq; subst. apply filter_In in Hd' as [Hd' Hne].
    exists ip. split; [|done].
    apply elem_of_map_to_list. by apply list_elem_of_In.
  - intros (ip & Hlook & Hd & Hne). exists (ip, ping_result). split.
    + apply list_elem_of_In. by apply elem_of_map_to_list.
    + apply in_map_iff. exists device. split; [done|]. by apply filter_In.
Qed.

Lemma reconcile_In (devices : list DeviceInfo) (all_ping_results : gmap string PingResult)
    (device : DeviceInfo) (ping_result : PingResult) :
  In (device, ping_result) (reconcile devices all_ping_results) <->
  In device devices /\ all_ping_results !! ip_address device = Some ping_result /\
  py_ne (current_reachable device) (is_reachable ping_result) = true.
Proof.
  unfold reconcile. rewrite updates_needed_In. split.
  - intros (ip & Hlook & Hd & Hne). rewrite group_by_ip_group in Hd.
    apply filter_In in Hd as [Hd Hip]. unfold at_ip in Hip.
    apply String.eqb_eq in Hip. subst. done.
  - intros (Hd & Hlook & Hne). exists (ip_address device). split; [done|]. split; [|done].
    rewrite group_by_ip_group. apply filter_In. split; [done|]. apply String.eqb_refl.
Qed.

(** multiset facts about [List.filter] *)
Lemma filter_submseteq_self {A} (p : A -> bool) (l : list A) : List.filter p l ⊆+ l.
Proof.
  induction l as [|x l IH]; cbn; [done|].
  destruct (p x); [by apply submseteq_skip | by apply submseteq_cons].
Qed.

Lemma filter_submseteq_mono {A} (p : A -> bool) (l1 l2 : list A) :
  l1 ⊆+ l2 -> List.filter p l1 ⊆+ List.filter p l2.
Proof.
  induction 1 as [|x l1 l2 _ IH|x y l|x l1 l2 _ IH|l1 l2 l3 _ IH1 _ IH2]; cbn.
  - done.
  - destruct (p x); [by apply submseteq_skip | done].
  - destruct (p x), (p y); try done; by constructor.
  - destruct (p x); [by apply submseteq_cons | done].
  - by etrans.
Qed.

Lemma map_submseteq_mono {A B} (f : A -> B) (l1 l2 : list A) :
  l1 ⊆+ l2 -> map f l1 ⊆+ map f l2.
Proof.
  induction 1; cbn; try by constructor.
  by etrans.
Qed.

Lemma NoDup_submseteq_inv {A} (l1 l2 : list A) : l1 ⊆+ l2 -> NoDup l2 -> NoDup l1.
Proof.
  intros Hsub Hnd. apply submseteq_Permutation in Hsub as [k Hk].
  rewrite Hk in Hnd. by apply NoDup_app in Hnd as [? _].
Qed.

Lemma filter_complement_perm {A} (p : A -> bool) (l : list A) :
  List.filter p l ++ List.filter (fun x => negb (p x)) l ≡ₚ l.
Proof.
  induction l as [|x l IH]; cbn; [done|].
  destruct (p x); cbn.
  - by apply perm_skip.
  - rewrite <- Permutation_middle. by apply perm_skip.
Qed.

Lemma filter_at_ip_ne (k k' : string) (l : list DeviceInfo) :
  k' <> k ->
  List.filter (at_ip k') (List.filter (fun d => negb (at_ip k d)) l) = List.filter (at_ip k') l.
Proof.
  intros Hne. induction l as [|d l IH]; cbn; [done|].
  unfold at_ip in *.
  destruct (String.eqb_spec (ip_address d) k) as [Hk|Hk]; cbn;
    destruct (String.eqb_spec (ip_address d) k') as [Hk'|Hk']; cbn;
    first [congruence | exact IH | f_equal; exact IH].
Qed.

(** distinct addresses pick disjoint groups: together a sub-multiset *)
Lemma groups_submseteq (ks : list string) (l : list DeviceInfo) :
  NoDup ks -> flat_map (fun k => List.filter (at_ip k) l) ks ⊆+ l.
Proof.
  revert l. induction ks as [|k ks IH]; intros l Hnd; cbn; [apply submseteq_nil_l|].
  apply NoDup_cons in Hnd as [Hk Hnd].
  assert (Hrest : flat_map (fun k' => List.filter (at_ip k') l) ks =
                  flat_map (fun k' => List.filter (at_ip k') (List.filter (fun d => negb (at_ip k d)) l)) ks).
  { clear IH Hnd. induction ks as [|k' ks IHk]; cbn; [done|].
    rewrite filter_at_ip_ne by set_solver. rewrite IHk by set_solver. done. }
  rewrite Hrest. etrans.
  - apply submseteq_app; [reflexivity | apply IH, Hnd].
  - apply Permutation_submseteq, filter_complement_perm.
Qed.

Lemma updates_needed_fst (m : gmap string (list DeviceInfo)) (xs : list (string * PingResult)) :
  map fst (flat_map (fun '(ip, ping_result) =>
              map (fun device => (device, ping_result))
                  (List.filter (fun device => py_ne (current_reachable device)
                                                    (is_reachable ping_result)) (group_of m ip))) xs)
  ⊆+ flat_map (group_of m) (map fst xs).
Proof.
  induction xs as [|[ip pr] xs IH]; cbn; [done|].
  rewrite map_app, map_map. cbn. rewrite map_id.
  apply submseteq_app; [apply filter_submseteq_self | exact IH].
Qed.

Lemma reconcile_submseteq (devices : list DeviceInfo) (all_ping_results : gmap string PingResult) :
  map fst (reconcile devices all_ping_results) ⊆+ devices.
Proof.
  unfold reconcile, updates_needed. etrans; [apply updates_needed_fst|].
  assert (Hg : flat_map (group_of (group_by_ip devices)) (map fst (map_to_list all_ping_results))
               = flat_map (fun k => List.filter (at_ip k) devices) (map fst (map_to_list all_ping_results))).
  { apply flat_map_ext. intros k. apply group_by_ip_group. }
  rewrite Hg. apply groups_submseteq.
  pose proof (NoDup_fst_map_to_list all_ping_results) as H. exact H.
Qed.

End Reconciler.

Section ReconcilerTheorems.
Import Reconcile.

(** Scenario A of the spec: no update for X, one for Y (unknown to down,
    no latency). *)
Example reconcile_scenario_a :
  reconcile [Sample.device_x; Sample.device_y] Sample.probe_a =
    [(Sample.device_y, unreachable "10.0.0.2")].
Proof. vm_compute. reflexivity. Qed.

Lemma map_fst_filter_fst {A B} (p : A -> bool) (l : list (A * B)) :
  map fst (List.filter (fun u => p (fst u)) l) = List.filter p (map fst l).
Proof.
  induction l as [|[a b] l IH]; cbn; [done|]. destruct (p a); cbn; by rewrite IH.
Qed.

(** C8. Each fetched record occurrence receives at most one pending
    update: the updated records form a sub-multiset of the fetched ones.
    Hence the updates at one address are at most the records at that
    address, and records with distinct identifiers get updates with
    distinct identifiers. *)
Theorem reconcile_each_device_once (devices : list DeviceInfo)
    (all_ping_results : gmap string PingResult) :
  map fst (reconcile devices all_ping_results) ⊆+ devices /\
  (forall a, length (List.filter (fun u => at_ip a (fst u)) (reconcile devices all_ping_results))
             <= length (List.filter (at_ip a) devices))%nat /\
  (NoDup (map id devices) -> NoDup (map id (map fst (reconcile devices all_ping_results)))).
Proof.
  pose proof (reconcile_submseteq devices all_ping_results) as Hsub.
  split; [exact Hsub|]. split.
  - intros a. rewrite <- (length_map fst), map_fst_filter_fst.
    apply submseteq_length, filter_submseteq_mono, Hsub.
  - intros Hnd. eapply NoDup_submseteq_inv; [|exact Hnd].
    apply map_submseteq_mono, Hsub.
Qed.

(** C9 refuted: the same fetch and the same probe results give the same
    reconciliation, so a cycle that found a change finds it again. *)
Lemma reconcile_repeated_inputs :
  reconcile [Sample.device_y] Sample.probe_a = [(Sample.device_y, unreachable "10.0.0.2")] /\
  reconcile [Sample.device_y] Sample.probe_a <> [].
Proof. split; vm_compute; [reflexivity | discriminate]. Qed.

End ReconcilerTheorems.

(* ------------------------------------------------------------------ *)
(** ** Writing the updates back *)

Section WriteBack.
Import Reconcile Dispatch Inventory.

Lemma string_length_app (s t : string) : String.length (s +:+ t) = (String.length s + String.length t)%nat.
Proof.
  induction s as [|c s IH]; [done|].
  rewrite string_app_cons. cbn [String.length]. lia.
Qed.

Lemma string_app_r_cancel (s1 s2 t : string) : s1 +:+ t = s2 +:+ t -> s1 = s2.
Proof.
  revert s2. induction s1 as [|c s1 IH]; intros [|c' s2] H;
    rewrite ?string_app_cons, ?string_app_nil in H.
  - done.
  - apply (f_equal String.length) in H. cbn in H. rewrite string_length_app in H. lia.
  - apply (f_equal String.length) in H. cbn in H. rewrite string_length_app in H. lia.
  - inversion H as [[Hc Hs]]. subst. f_equal. by apply IH.
Qed.

Lemma device_url_inj (a b : Z) : device_url a = device_url b -> a = b.
Proof.
  unfold device_url. intros H.
  apply (inj (String.append NETBOX_URL)) in H.
  apply (inj (String.append "/api/dcim/devices/")) in H.
  apply string_app_r_cancel in H. by apply (inj pretty) in H.
Qed.

Lemma apply_patch_keys (device : DeviceInfo) (req : PatchRequest) :
  id (apply_patch device req) = id device /\ ip_address (apply_patch device req) = ip_address device.
Proof. unfold apply_patch. repeat case_match; done. Qed.

Lemma after_patch_keys (reqs : list PatchRequest) (device : DeviceInfo) :
  id (fold_left apply_patch reqs device) = id device /\
  ip_address (fold_left apply_patch reqs device) = ip_address device.
Proof.
  revert device. induction reqs as [|r reqs IH]; intros device; cbn; [done|].
  destruct (IH (apply_patch device r)) as [H1 H2].
  destruct (apply_patch_keys device r) as [H3 H4]. split; congruence.
Qed.

Definition reachable_body (b : bool) : Json :=
  JObject [("custom_fields", JObject [("reachable", JBool b)])].

(** requests for one device that all write [b]: afterwards the flag is
    [b], or no request was addressed to the device *)
Lemma after_patch_flag (reqs : list PatchRequest) (device : DeviceInfo) (b : bool) :
  (forall r, In r reqs -> req_url r = device_url (id device) -> req_body r = reachable_body b) ->
  current_reachable (fold_left apply_patch reqs device) = Some b \/
  (fold_left apply_patch reqs device = device /\
   forall r, In r reqs -> req_url r <> device_url (id device)).
Proof.
  revert device. induction reqs as [|r reqs IH]; intros device Hreqs; cbn; [by right|].
  destruct (String.eqb_spec (req_url r) (device_url (id device))) as [Hu|Hu].
  - left.
    set (device' := {| id := id device; name := name device; ip_address := ip_address device;
                       current_reachable := Some b |}).
    assert (Hp : apply_patch device r = device').
    { unfold apply_patch. rewrite Hu, String.eqb_refl, (Hreqs r (or_introl eq_refl) Hu). done. }
    rewrite Hp.
    destruct (IH device') as [H|[H _]].
    + intros r' Hr' Hu'. apply Hreqs; [by right | exact Hu'].
    + exact H.
    + rewrite H. done.
  - assert (Hp : apply_patch device r = device).
    { unfold apply_patch. destruct (String.eqb_spec (req_url r) (device_url (id device))); done. }
    rewrite Hp.
    destruct (IH device) as [H|[H Hno]].
    + intros r' Hr' Hu'. apply Hreqs; [by right | exact Hu'].
    + by left.
    + right. split; [exact H|]. intros r' [<-|Hr']; [exact Hu | by apply Hno].
Qed.

Lemma NoDup_map_inj_on {A B} (f : A -> B) (l : list A) (x y : A) :
  NoDup (map f l) -> In x l -> In y l -> f x = f y -> x = y.
Proof.
  induction l as [|a l IH]; cbn; [done|].
  intros Hnd Hx Hy Hf. apply NoDup_cons in Hnd as [Ha Hnd].
  destruct Hx as [<-|Hx], Hy as [<-|Hy]; try done.
  - exfalso. apply Ha. rewrite Hf. apply list_elem_of_In, in_map, Hy.
  - exfalso. apply Ha. rewrite <- Hf. apply list_elem_of_In, in_map, Hx.
  - by apply IH.
Qed.

Lemma py_ne_false (current : option bool) (b : bool) :
  py_ne current b = false -> current = Some b.
Proof. destruct current as [c|]; cbn; [|discriminate]. destruct c, b; done. Qed.

Lemma after_writeback_flag (devices : list DeviceInfo) (all_ping_results : gmap string PingResult)
    (device : DeviceInfo) (ping_result : PingResult) :
  NoDup (map id devices) -> In device devices ->
  all_ping_results !! ip_address device = Some ping_result ->
  current_reachable (fold_left apply_patch
                       (update_device_batch (reconcile devices all_ping_results)) device)
  = Some (is_reachable ping_result).
Proof.
  intros Hnd Hd Hlook.
  destruct (after_patch_flag (update_device_batch (reconcile devices all_ping_results))
              device (is_reachable ping_result)) as [H|[H Hno]].
  - intros r Hr Hu. unfold update_device_batch in Hr.
    apply in_map_iff in Hr as [[d0 pr0] [<- Hin]].
    cbn in Hu. apply device_url_inj in Hu.
    apply reconcile_In in Hin as (Hd0 & Hlook0 & _).
    pose proof (NoDup_map_inj_on id devices d0 device Hnd Hd0 Hd Hu) as ->.
    rewrite Hlook in Hlook0. inversion Hlook0. done.
  - exact H.
  - rewrite H.
    destruct (py_ne (current_reachable device) (is_reachable ping_result)) eqn:Hne.
    + exfalso. apply (Hno (update_single device ping_result)); [|done].
      unfold update_device_batch. apply in_map_iff.
      exists (device, ping_result). split; [done|]. by apply reconcile_In.
    + by apply py_ne_false.
Qed.

End WriteBack.

(** C9 (as the code does it).  When every PATCH of a cycle succeeded, the
    next fetch returns the written flags; with the same probe results the
    next reconciliation is then empty.  Fetched records carry distinct
    identifiers, as the inventory's primary key makes them. *)
Theorem reconcile_after_writeback_empty (devices : list DeviceInfo)
    (all_ping_results : gmap string PingResult) :
  NoDup (map id devices) ->
  Reconcile.reconcile
    (Inventory.after_patches
       (Dispatch.update_device_batch (Reconcile.reconcile devices all_ping_results)) devices)
    all_ping_results = [].
Proof.
  intros Hnd.
  destruct (Reconcile.reconcile _ all_ping_results) as [|[d' pr] rest] eqn:E; [done|].
  exfalso.
  assert (Hin : In (d', pr) (Reconcile.reconcile
     (Inventory.after_patches
       (Dispatch.update_device_batch (Reconcile.reconcile devices all_ping_results)) devices)
     all_ping_results)) by (rewrite E; by left).
  apply reconcile_In in Hin as (Hd' & Hlook & Hne).
  unfold Inventory.after_patches in Hd'. apply in_map_iff in Hd' as [d [<- Hd]].
  destruct (after_patch_keys
              (Dispatch.update_device_batch (Reconcile.reconcile devices all_ping_results)) d)
    as [_ Hip].
  rewrite Hip in Hlook.
  rewrite (after_writeback_flag devices all_ping_results d pr Hnd Hd Hlook) in Hne.
  cbn in Hne. by destruct (is_reachable pr).
Qed.

Lemma reconcile_after_writeback_empty_witness :
  NoDup (map id [Sample.device_x; Sample.device_y]) /\
  Reconcile.reconcile
    (Inventory.after_patches
       (Dispatch.update_device_batch
          (Reconcile.reconcile [Sample.device_x; Sample.device_y] Sample.probe_a))
       [Sample.device_x; Sample.device_y])
    Sample.probe_a = [].
Proof.
  split.
  - apply (bool_decide_unpack _). vm_compute. reflexivity.
  - apply reconcile_after_writeback_empty.
    apply (bool_decide_unpack _). vm_compute. reflexivity.
Defined.

(* ------------------------------------------------------------------ *)
(** ** The inventory fetch *)

Section FetchTheorems.
Import Fetch.

Lemma fetch_loop_pages (get_page : nat -> Response) (fuel k : nat)
    (acc : list DeviceInfo) (reqs : list nat) (devices : list DeviceInfo) :
  fetch_loop get_page fuel (k * limit) acc = (reqs, Some devices) ->
  exists n,
    reqs = map (fun i => i * limit)%nat (seq k (S n)) /\
    (forall i, (k <= i < k + n)%nat -> full_page (get_page (i * limit)%nat)) /\
    let earlier := acc ++ flat_map (fun i => page_devices (get_page (i * limit)%nat)) (seq k n) in
    match get_page ((k + n) * limit)%nat with
    | HttpResponse status results =>
        if Z.eqb status 200
        then (length results < limit)%nat /\ devices = earlier ++ omap parse_device results
        else devices = earlier
    | RequestRaised => devices = earlier
    end.
Proof.
  revert k acc reqs devices.
  induction fuel as [|fuel IH]; intros k acc reqs devices H; cbn [fetch_loop] in H;
    [discriminate H|].
  destruct (get_page (k * limit)%nat) as [status results|] eqn:Eg.
  - destruct (Z.eqb_spec status 200) as [Hst|Hst].
    + destruct (Nat.ltb_spec (length results) limit) as [Hlt|Hge].
      * inversion H; subst. exists 0%nat. split; [done|]. split; [lia|].
        cbn zeta. rewrite Nat.add_0_r, Eg. cbn [seq flat_map].
        rewrite Z.eqb_refl, app_nil_r. done.
      * destruct (fetch_loop get_page fuel (k * limit + limit)
                    (acc ++ omap parse_device results)) as [reqs' r] eqn:Er.
        inversion H; subst.
        rewrite <- Nat.mul_succ_l in Er.
        destruct (IH (S k) _ _ _ Er) as (n & Hreqs & Hfull & Hlast).
        exists (S n). split; [|split].
        -- rewrite Hreqs. done.
        -- intros i Hi. destruct (decide (i = k)) as [->|Hne].
           ++ rewrite Eg. cbn. split; [done | lia].
           ++ apply Hfull. lia.
        -- replace (k + S n)%nat with (S k + n)%nat by lia.
           cbn zeta in Hlast |- *. cbn [seq flat_map]. rewrite Eg. cbn [page_devices].
           rewrite Z.eqb_refl.
           destruct (get_page ((S k + n) * limit)%nat) as [st res|];
             [destruct (Z.eqb st 200)|];
             rewrite <- !app_assoc in Hlast; rewrite <- ?app_assoc; exact Hlast.
    + inversion H; subst. exists 0%nat. split; [done|]. split; [lia|].
      cbn zeta. rewrite Nat.add_0_r, Eg. cbn [seq flat_map].
      destruct (Z.eqb_spec status 200); [contradiction|]. by rewrite app_nil_r.
  - inversion H; subst. exists 0%nat. split; [done|]. split; [lia|].
    cbn zeta. rewrite Nat.add_0_r, Eg. cbn [seq flat_map]. by rewrite app_nil_r.
Qed.

End FetchTheorems.

(** C5. When [fetch_all_devices] returns, it requested the offsets
    0, limit, 2*limit, ..., n*limit in this order; every page before the
    last was a successful page of at least [limit] records; and the last
    request either returned a successful page shorter than [limit] (its
    records are appended) or failed (non-200 status or an exception), in
    which case exactly the records of the earlier pages are returned. *)
Theorem fetch_all_devices_pagination (get_page : nat -> Fetch.Response) (fuel : nat)
    (reqs : list nat) (devices : list DeviceInfo) :
  Fetch.fetch_all_devices get_page fuel = (reqs, Some devices) ->
  exists n,
    reqs = map (fun i => i * Fetch.limit)%nat (seq 0 (S n)) /\
    (forall i, (i < n)%nat -> Fetch.full_page (get_page (i * Fetch.limit)%nat)) /\
    let earlier := flat_map (fun i => Fetch.page_devices (get_page (i * Fetch.limit)%nat)) (seq 0 n) in
    match get_page (n * Fetch.limit)%nat with
    | Fetch.HttpResponse status results =>
        if Z.eqb status 200
        then (length results < Fetch.limit)%nat /\ devices = earlier ++ omap Fetch.parse_device results
        else devices = earlier
    | Fetch.RequestRaised => devices = earlier
    end.
Proof.
  intros H. unfold Fetch.fetch_all_devices in H.
  change 0%nat with (0 * Fetch.limit)%nat in H.
  destruct (fetch_loop_pages get_page fuel 0 [] reqs devices H) as (n & Hreqs & Hfull & Hlast).
  exists n. split; [exact Hreqs|]. split.
  - intros i Hi. apply Hfull. lia.
  - exact Hlast.
Qed.

Lemma fetch_all_devices_pagination_witness :
  Fetch.fetch_all_devices Sample.inventory_then_500 5 =
    ([0%nat; 1000%nat], Some (repeat Sample.device_x 1000)) /\
  exists n,
    [0%nat; 1000%nat] = map (fun i => i * Fetch.limit)%nat (seq 0 (S n)) /\
    (forall i, (i < n)%nat -> Fetch.full_page (Sample.inventory_then_500 (i * Fetch.limit)%nat)) /\
    let earlier := flat_map (fun i => Fetch.page_devices (Sample.inventory_then_500 (i * Fetch.limit)%nat))
                            (seq 0 n) in
    match Sample.inventory_then_500 (n * Fetch.limit)%nat with
    | Fetch.HttpResponse status results =>
        if Z.eqb status 200
        then (length results < Fetch.limit)%nat /\
             repeat Sample.device_x 1000 = earlier ++ omap Fetch.parse_device results
        else repeat Sample.device_x 1000 = earlier
    | Fetch.RequestRaised => repeat Sample.device_x 1000 = earlier
    end.
Proof.
  assert (H : Fetch.fetch_all_devices Sample.inventory_then_500 5 =
                ([0%nat; 1000%nat], Some (repeat Sample.device_x 1000)))
    by (vm_compute; reflexivity).
  split; [exact H|].
  exact (fetch_all_devices_pagination Sample.inventory_then_500 5 _ _ H).
Defined.

(* ================================================================== *)
(** * Further properties of the cycle *)

(* ------------------------------------------------------------------ *)
(** ** Batching the addresses *)

Lemma chunks_fuel_spec (n fuel : nat) (l : list string) :
  (0 < n)%nat -> (length l <= fuel)%nat ->
  concat (Probe.chunks_fuel fuel n l) = l /\
  Forall (fun b => 0 < length b <= n)%nat (Probe.chunks_fuel fuel n l).
Proof.
  intros Hn. revert l. induction fuel as [|f IH]; intros l Hl.
  - destruct l; cbn in Hl; [done | lia].
  - destruct l as [|x l']; [done|]. cbn [Probe.chunks_fuel].
    destruct (IH (drop n (x :: l'))) as [Hc Hf].
    { rewrite length_drop. cbn in Hl |- *. lia. }
    cbn [concat]. rewrite Hc, take_drop. split; [done|].
    constructor; [|exact Hf].
    rewrite length_take. cbn. lia.
Qed.

(** The [for i in range(0, len(unique_ips), BATCH_SIZE)] loop (lines
    305-306) cuts the address list into consecutive slices: read in order
    they give back the list, and each slice holds between 1 and
    [BATCH_SIZE] addresses. *)
Theorem chunks_partition (n : nat) (l : list string) :
  (0 < n)%nat ->
  concat (Probe.chunks n l) = l /\
  Forall (fun b => 0 < length b <= n)%nat (Probe.chunks n l).
Proof. intros Hn. apply chunks_fuel_spec; [exact Hn | done]. Qed.

Lemma chunks_partition_witness :
  (0 < BATCH_SIZE)%nat /\
  concat (Probe.chunks BATCH_SIZE ["10.0.0.1"; "10.0.0.2"]) = ["10.0.0.1"; "10.0.0.2"] /\
  Forall (fun b => 0 < length b <= BATCH_SIZE)%nat (Probe.chunks BATCH_SIZE ["10.0.0.1"; "10.0.0.2"]).
Proof.
  assert (H : (0 < BATCH_SIZE)%nat) by (vm_compute; lia).
  split; [exact H|]. exact (chunks_partition BATCH_SIZE _ H).
Defined.

(* ------------------------------------------------------------------ *)
(** ** Grouping by address *)

Section Grouping.
Import Reconcile Cycle.

Lemma unique_ips_fold (devices : list DeviceInfo) (keys : list string) :
  NoDup keys ->
  NoDup (fold_left (fun keys device =>
                      if decide (ip_address device ∈ keys) then keys
                      else keys ++ [ip_address device]) devices keys) /\
  forall a, a ∈ fold_left (fun keys device =>
                             if decide (ip_address device ∈ keys) then keys
                             else keys ++ [ip_address device]) devices keys <->
            a ∈ keys \/ exists d, d ∈ devices /\ ip_address d = a.
Proof.
  revert keys. induction devices as [|d ds IH]; intros keys Hnd; cbn [fold_left].
  - split; [done|]. set_solver.
  - case_decide as Hin.
    + destruct (IH keys Hnd) as [IH1 IH2]. split; [done|].
      intros a. rewrite IH2. set_solver.
    + assert (Hnd' : NoDup (keys ++ [ip_address d])).
      { apply NoDup_app. split; [done|]. split; [set_solver | apply NoDup_singleton]. }
      destruct (IH _ Hnd') as [IH1 IH2]. split; [done|].
      intros a. rewrite IH2. set_solver.
Qed.

End Grouping.

(** Grouping (lines 289-296): [unique_ips] lists each address of the
    fetched devices exactly once, and [ip_to_devices.get(a, [])] lists the
    devices at address [a] in the order they were fetched. *)
Theorem ip_to_devices_groups (devices : list DeviceInfo) :
  NoDup (Cycle.unique_ips devices) /\
  (forall a, a ∈ Cycle.unique_ips devices <-> exists d, d ∈ devices /\ ip_address d = a) /\
  (forall a, Reconcile.group_of (Reconcile.group_by_ip devices) a =
             List.filter (Reconcile.at_ip a) devices).
Proof.
  destruct (unique_ips_fold devices [] (NoDup_nil_2)) as [H1 H2].
  split; [exact H1|]. split.
  - intros a. unfold Cycle.unique_ips. rewrite H2. set_solver.
  - intros a. apply group_by_ip_group.
Qed.

(* ------------------------------------------------------------------ *)
(** ** Counting the successful updates *)

(** [update_device_batch] counts an update as done only when its PATCH
    answered status 200 exactly (another 2xx, an error status or an
    exception count as failed): the count never exceeds the number of
    updates, and reaches it only when every PATCH answered 200. *)
Theorem updated_count_bounds (outcomes : list Cycle.PatchOutcome) :
  (Cycle.updated_count outcomes <= length outcomes)%nat /\
  (Cycle.updated_count outcomes = length outcomes <->
   Forall (fun o => o = Cycle.PatchResponse 200) outcomes).
Proof.
  unfold Cycle.updated_count.
  induction outcomes as [|o os [IH1 IH2]]; cbn [map List.filter length].
  - split; [lia|]. split; [constructor | done].
  - rewrite Forall_cons.
    destruct o as [status|]; cbn [Cycle.update_single_result].
    + destruct (Z.eqb_spec status 200) as [->|Hne]; cbn [length].
      * split; [lia|]. rewrite <- IH2. split; [intros; split; [done | lia] | intros [_ ?]; lia].
      * split; [lia|]. split; [lia|]. intros [Heq _]. inversion Heq. contradiction.
    + split; [lia|]. split; [lia|]. intros [Heq _]. discriminate Heq.
Qed.

(* ------------------------------------------------------------------ *)
(** ** What the fetch returns *)

Section FetchRecords.
Import Fetch.

Lemma fetch_loop_devices (get_page : nat -> Response) (fuel offset : nat)
    (acc : list DeviceInfo) (reqs : list nat) (devices : list DeviceInfo) :
  fetch_loop get_page fuel offset acc = (reqs, Some devices) ->
  devices = acc ++ flat_map (fun o => page_devices (get_page o)) reqs.
Proof.
  revert offset acc reqs devices.
  induction fuel as [|fuel IH]; intros offset acc reqs devices H; cbn [fetch_loop] in H;
    [discriminate H|].
  destruct (get_page offset) as [status results|] eqn:Eg.
  - destruct (Z.eqb_spec status 200) as [Hst|Hst].
    + destruct (length results <? limit)%nat.
      * inversion H; subst. cbn [flat_map]. rewrite Eg. cbn [page_devices].
        by rewrite Z.eqb_refl, !app_nil_r.
      * destruct (fetch_loop get_page fuel (offset + limit) (acc ++ omap parse_device results))
          as [reqs' r] eqn:Er.
        inversion H; subst. apply IH in Er. rewrite Er.
        cbn [flat_map]. rewrite Eg. cbn [page_devices]. rewrite Z.eqb_refl.
        by rewrite app_assoc.
    + inversion H; subst. cbn [flat_map]. rewrite Eg. cbn [page_devices].
      destruct (Z.eqb_spec status 200); [contradiction|]. by rewrite !app_nil_r.
  - inversion H; subst. cbn [flat_map]. rewrite Eg. by rewrite !app_nil_r.
Qed.

Lemma split_first_no_sep (sep : ascii) (s : string) :
  Py.contains sep (Py.split_first sep s) = false.
Proof.
  induction s as [|c s IH]; [done|]. cbn [Py.split_first].
  destruct (Ascii.eqb c sep) eqn:Ec; [done|]. cbn [Py.contains]. by rewrite Ec, IH.
Qed.

End FetchRecords.

(** The devices [fetch_all_devices] returns are the records of the pages
    it requested, in request order, with nothing from a failed request;
    and no returned address keeps a ['/'] (the prefix length of the
    primary address is cut off). *)
Theorem fetch_all_devices_records (get_page : nat -> Fetch.Response) (fuel : nat)
    (reqs : list nat) (devices : list DeviceInfo) :
  Fetch.fetch_all_devices get_page fuel = (reqs, Some devices) ->
  devices = flat_map (fun o => Fetch.page_devices (get_page o)) reqs /\
  (forall d, d ∈ devices -> Py.contains "/" (ip_address d) = false).
Proof.
  intros H. apply fetch_loop_devices in H. cbn [app] in H.
  split; [exact H|]. intros d Hd. subst devices.
  apply list_elem_of_In, in_flat_map in Hd as [o [_ Hd]].
  destruct (get_page o) as [status results|]; cbn [Fetch.page_devices] in Hd; [|done].
  destruct (Z.eqb status 200); [|done].
  apply list_elem_of_In, list_elem_of_omap in Hd as [j [_ Hj]].
  unfold Fetch.parse_device in Hj.
  destruct (match Fetch.primary_ip4 j with Some a => Some a | None => Fetch.primary_ip6 j end)
    as [address|]; [|discriminate Hj].
  inversion Hj; subst. cbn. apply split_first_no_sep.
Qed.

Lemma fetch_all_devices_records_witness :
  Fetch.fetch_all_devices Sample.inventory_one 1 = ([0%nat], Some [Sample.device_x]) /\
  [Sample.device_x] = flat_map (fun o => Fetch.page_devices (Sample.inventory_one o)) [0%nat] /\
  (forall d, d ∈ [Sample.device_x] -> Py.contains "/" (ip_address d) = false).
Proof.
  assert (H : Fetch.fetch_all_devices Sample.inventory_one 1 = ([0%nat], Some [Sample.device_x]))
    by (vm_compute; reflexivity).
  split; [exact H|]. exact (fetch_all_devices_records Sample.inventory_one 1 _ _ H).
Defined.

(* ------------------------------------------------------------------ *)
(** ** The probe phase *)

Section ProbeFacts.

Lemma fold_left_inv {A B} (P : B -> Prop) (step : B -> A -> B) (l : list A) (b : B) :
  (forall b x, P b -> P (step b x)) -> P b -> P (fold_left step l b).
Proof. intros Hs. revert b. induction l as [|x l IH]; intros b Hb; cbn; [done|]. by apply IH, Hs. Qed.

Lemma insert_keyed (m : gmap string PingResult) (k : string) (r : PingResult) :
  pr_ip_address r = k ->
  (forall k' r', m !! k' = Some r' -> pr_ip_address r' = k') ->
  forall k' r', <[k := r]> m !! k' = Some r' -> pr_ip_address r' = k'.
Proof.
  intros Hr Hm k' r' H. apply lookup_insert_Some in H as [[<- <-]|[_ H]]; [done|]. by apply Hm.
Qed.

Lemma fping_batch_keyed (batch : list string) (o : Fping.Outcome) :
  forall k r, Fping.fping_batch batch o !! k = Some r -> pr_ip_address r = k.
Proof.
  assert (Hempty : forall k (r : PingResult), (∅ : gmap string PingResult) !! k = Some r ->
                   pr_ip_address r = k) by (intros k r H; by rewrite lookup_empty in H).
  assert (Hall : forall ips, forall k r, Fping.all_unreachable ips ∅ !! k = Some r ->
                                         pr_ip_address r = k).
  { intros ips. unfold Fping.all_unreachable.
    apply (fold_left_inv (fun m : gmap string PingResult => forall k r, m !! k = Some r -> pr_ip_address r = k)); [|exact Hempty].
    intros m ip Hm. by apply insert_keyed. }
  destruct batch as [|a l]; [exact Hempty|].
  destruct o as [stderr|partial|]; [|apply Hall|apply Hall].
  unfold Fping.mark_missing. apply (fold_left_inv (fun m : gmap string PingResult => forall k r, m !! k = Some r -> pr_ip_address r = k)).
  - intros m ip Hm. destruct (m !! ip); [done|]. by apply insert_keyed.
  - unfold Fping.parse_output. apply (fold_left_inv (fun m : gmap string PingResult => forall k r, m !! k = Some r -> pr_ip_address r = k)); [|exact Hempty].
    intros m line Hm. destruct (Fping.parse_line line); [|done]. by apply insert_keyed.
Qed.

Lemma fallback_ping_ip (ip : string) (o : Ping.Outcome) :
  pr_ip_address (Ping.fallback_ping ip o) = ip.
Proof.
  unfold Ping.fallback_ping, Ping.try_body.
  destruct o as [rc stdout|]; [|done]. repeat case_match; by simplify_eq.
Qed.

Lemma probe_all_keyed (use_fping : bool) (fping_out : list string -> Fping.Outcome)
    (ping_out : string -> Ping.Outcome) (ips : list string) :
  forall k r, Probe.probe_all use_fping fping_out ping_out ips !! k = Some r -> pr_ip_address r = k.
Proof.
  assert (Hempty : forall k (r : PingResult), (∅ : gmap string PingResult) !! k = Some r ->
                   pr_ip_address r = k) by (intros k r H; by rewrite lookup_empty in H).
  unfold Probe.probe_all. destruct use_fping.
  - apply (fold_left_inv (fun m : gmap string PingResult => forall k r, m !! k = Some r -> pr_ip_address r = k)); [|exact Hempty].
    intros m batch Hm k r H. apply lookup_union_Some_raw in H as [H|[_ H]].
    + by eapply fping_batch_keyed.
    + by apply Hm.
  - apply (fold_left_inv (fun m : gmap string PingResult => forall k r, m !! k = Some r -> pr_ip_address r = k)); [|exact Hempty].
    intros m r Hm. by apply insert_keyed.
Qed.

Lemma fping_batch_covers (batch : list string) (o : Fping.Outcome) (ip : string) :
  ip ∈ batch -> is_Some (Fping.fping_batch batch o !! ip).
Proof.
  intros Hin. destruct batch as [|a l]; [set_solver|].
  unfold Fping.fping_batch.
  destruct o; rewrite ?mark_missing_lookup, ?all_unreachable_lookup, ?decide_True by done;
    [destruct (Fping.parse_output stderr !! ip); rewrite ?decide_True by done|..]; done.
Qed.

Lemma fold_union_is_Some (g : list string -> gmap string PingResult)
    (bs : list (list string)) (acc : gmap string PingResult) (ip : string) :
  is_Some (acc !! ip) \/ (exists b, In b bs /\ is_Some (g b !! ip)) ->
  is_Some (fold_left (fun acc b => g b ∪ acc) bs acc !! ip).
Proof.
  revert acc. induction bs as [|b bs IH]; intros acc H; cbn [fold_left].
  - destruct H as [H|(b & [] & _)]. exact H.
  - apply IH. rewrite lookup_union_is_Some.
    destruct H as [H|(b' & [<-|Hb'] & H)]; [left; by right | left; by left |].
    right. by exists b'.
Qed.

Lemma probe_fping_lookup_is_Some (fping_out : list string -> Fping.Outcome)
    (ping_out : string -> Ping.Outcome) (ips : list string) (ip : string) :
  ip ∈ ips -> is_Some (Probe.probe_all true fping_out ping_out ips !! ip).
Proof.
  intros Hin. unfold Probe.probe_all. apply fold_union_is_Some. right.
  destruct (chunks_fuel_spec BATCH_SIZE (length ips) ips) as [Hc _]; [vm_compute; lia | done|].
  rewrite <- Hc in Hin. apply list_elem_of_In, in_concat in Hin as (b & Hb & Hipb).
  exists b. split; [exact Hb|]. apply fping_batch_covers. by apply list_elem_of_In.
Qed.

Lemma probe_fallback_lookup (fping_out : list string -> Fping.Outcome)
    (ping_out : string -> Ping.Outcome) (ips : list string) (ip : string) :
  Probe.probe_all false fping_out ping_out ips !! ip =
    if decide (ip ∈ ips) then Some (Ping.fallback_ping ip (ping_out ip)) else None.
Proof.
  unfold Probe.probe_all. cbn zeta.
  assert (forall (acc : gmap string PingResult),
    fold_left (fun all_ping_results r => <[pr_ip_address r := r]> all_ping_results)
              (map (fun ip => Ping.fallback_ping ip (ping_out ip)) ips) acc !! ip =
    if decide (ip ∈ ips) then Some (Ping.fallback_ping ip (ping_out ip)) else acc !! ip) as H.
  { induction ips as [|a ips IH]; intros acc; cbn [map fold_left].
    - case_decide; [set_solver | done].
    - rewrite IH, fallback_ping_ip, lookup_insert.
      destruct (decide (ip ∈ ips)), (decide (ip ∈ a :: ips)), (decide (a = ip));
        subst; try done; set_solver. }
  rewrite H, lookup_empty. done.
Qed.

Lemma fping_batch_failed (batch : list string) (o : Fping.Outcome) (k : string) :
  (o = Fping.Raised \/ exists p, o = Fping.TimedOut p) ->
  Fping.fping_batch batch o !! k = if decide (k ∈ batch) then Some (unreachable k) else None.
Proof.
  intros Ho. destruct batch as [|a l].
  - cbn. rewrite lookup_empty. case_decide; set_solver.
  - unfold Fping.fping_batch.
    destruct Ho as [->|[p ->]]; rewrite all_unreachable_lookup, lookup_empty; done.
Qed.

Lemma probe_fping_failed_lookup (fping_out : list string -> Fping.Outcome)
    (ping_out : string -> Ping.Outcome) (ips : list string) (k : string) :
  (forall batch, fping_out batch = Fping.Raised \/ exists p, fping_out batch = Fping.TimedOut p) ->
  Probe.probe_all true fping_out ping_out ips !! k =
    if decide (k ∈ ips) then Some (unreachable k) else None.
Proof.
  intros Hfail. unfold Probe.probe_all.
  assert (forall bs (acc : gmap string PingResult) (seen : list string),
    (forall k', acc !! k' = if decide (k' ∈ seen) then Some (unreachable k') else None) ->
    fold_left (fun all_ping_results batch =>
                 Fping.fping_batch batch (fping_out batch) ∪ all_ping_results) bs acc !! k =
    if decide (k ∈ seen ++ concat bs) then Some (unreachable k) else None) as H.
  { induction bs as [|b bs IH]; intros acc seen Hacc; cbn [fold_left concat].
    - rewrite Hacc, app_nil_r. done.
    - rewrite (IH _ (seen ++ b)).
      + rewrite <- app_assoc. done.
      + intros k'. rewrite lookup_union, fping_batch_failed, Hacc by apply Hfail.
        destruct (decide (k' ∈ b)), (decide (k' ∈ seen)), (decide (k' ∈ seen ++ b));
          try done; set_solver. }
  rewrite (H _ ∅ []) by (intros k'; rewrite lookup_empty; case_decide; set_solver).
  destruct (chunks_fuel_spec BATCH_SIZE (length ips) ips) as [Hc _]; [vm_compute; lia | done|].
  unfold Probe.chunks. rewrite Hc. done.
Qed.

End ProbeFacts.

(** Every entry of the probe results of a cycle, in either mode, is
    stored under its own address: [all_ping_results[k].ip_address == k]. *)
Theorem probe_results_keyed (use_fping : bool) (fping_out : list string -> Fping.Outcome)
    (ping_out : string -> Ping.Outcome) (ips : list string) (k : string) (r : PingResult) :
  Probe.probe_all use_fping fping_out ping_out ips !! k = Some r -> pr_ip_address r = k.
Proof. apply probe_all_keyed. Qed.

Lemma probe_results_keyed_witness :
  Probe.probe_all true (fun _ => Fping.Completed Sample.fping_two_of_three)
    (fun _ => Ping.Raised) ["10.0.0.1"] !! "10.0.0.2" = Some (unreachable "10.0.0.2") /\
  pr_ip_address (unreachable "10.0.0.2") = "10.0.0.2".
Proof.
  assert (H : Probe.probe_all true (fun _ => Fping.Completed Sample.fping_two_of_three)
                (fun _ => Ping.Raised) ["10.0.0.1"] !! "10.0.0.2" = Some (unreachable "10.0.0.2"))
    by (vm_compute; reflexivity).
  split; [exact H|]. exact (probe_results_keyed _ _ _ _ _ _ H).
Defined.

(** In fping mode every address handed to the probe phase gets a probe
    result, whatever each fping call does (exit, time out or raise). *)
Theorem probe_fping_covers (fping_out : list string -> Fping.Outcome)
    (ping_out : string -> Ping.Outcome) (ips : list string) (ip : string) :
  ip ∈ ips -> is_Some (Probe.probe_all true fping_out ping_out ips !! ip).
Proof. apply probe_fping_lookup_is_Some. Qed.

Lemma probe_fping_covers_witness :
  "10.0.0.3" ∈ ["10.0.0.1"; "10.0.0.3"] /\
  is_Some (Probe.probe_all true (fun _ => Fping.Completed Sample.fping_two_of_three)
             (fun _ => Ping.Raised) ["10.0.0.1"; "10.0.0.3"] !! "10.0.0.3").
Proof.
  assert (H : "10.0.0.3" ∈ ["10.0.0.1"; "10.0.0.3"])
    by (apply (bool_decide_unpack _); vm_compute; reflexivity).
  split; [exact H|]. exact (probe_fping_covers _ _ _ _ H).
Defined.

(** In fallback mode the probe results hold, for each address handed to
    the probe phase, exactly the result of [fallback_ping] on it, and
    nothing for any other address. *)
Theorem probe_fallback_results (fping_out : list string -> Fping.Outcome)
    (ping_out : string -> Ping.Outcome) (ips : list string) (ip : string) :
  Probe.probe_all false fping_out ping_out ips !! ip =
    if decide (ip ∈ ips) then Some (Ping.fallback_ping ip (ping_out ip)) else None.
Proof. apply probe_fallback_lookup. Qed.

(** In fping mode, when every fping call times out or raises, the probe
    results mark exactly the handed addresses unreachable, with no
    latency, and hold nothing else. *)
Theorem probe_fping_all_failed (fping_out : list string -> Fping.Outcome)
    (ping_out : string -> Ping.Outcome) (ips : list string) (k : string) :
  (forall batch, fping_out batch = Fping.Raised \/ exists p, fping_out batch = Fping.TimedOut p) ->
  Probe.probe_all true fping_out ping_out ips !! k =
    if decide (k ∈ ips) then Some (unreachable k) else None.
Proof. apply probe_fping_failed_lookup. Qed.

Lemma probe_fping_all_failed_witness :
  (forall batch, (fun _ : list string => Fping.Raised) batch = Fping.Raised \/
                 exists p, (fun _ : list string => Fping.Raised) batch = Fping.TimedOut p) /\
  Probe.probe_all true (fun _ => Fping.Raised) (fun _ => Ping.Raised) ["10.0.0.1"] !! "10.0.0.1" =
    if decide ("10.0.0.1" ∈ ["10.0.0.1"]) then Some (unreachable "10.0.0.1") else None.
Proof.
  assert (H : forall batch, (fun _ : list string => Fping.Raised) batch = Fping.Raised \/
                 exists p, (fun _ : list string => Fping.Raised) batch = Fping.TimedOut p)
    by (intros batch; left; reflexivity).
  split; [exact H|]. exact (probe_fping_all_failed _ _ _ _ H).
Defined.

(* ------------------------------------------------------------------ *)
(** ** The reconciliation as a multiset *)

Section ReconcileMultiset.
Import Reconcile.

Lemma omap_ext_in {A B} (f g : A -> option B) (l : list A) :
  (forall x, In x l -> f x = g x) -> omap f l = omap g l.
Proof.
  induction l as [|x l IH]; intros H; cbn; [done|].
  rewrite (H x (or_introl eq_refl)), IH; [done|]. intros y Hy. apply H. by right.
Qed.

Lemma omap_cons {A B} (g : A -> option B) (x : A) (l : list A) :
  omap g (x :: l) = match g x with Some y => y :: omap g l | None => omap g l end.
Proof. reflexivity. Qed.

Lemma filter_disj_perm {A} (p q : A -> bool) (l : list A) :
  (forall x, p x = true -> q x = false) ->
  List.filter (fun x => p x || q x) l ≡ₚ List.filter p l ++ List.filter q l.
Proof.
  intros Hpq. induction l as [|x l IH]; cbn; [done|].
  destruct (p x) eqn:Ep; cbn.
  - rewrite (Hpq x Ep). by apply perm_skip.
  - destruct (q x); [|exact IH]. rewrite <- Permutation_middle. by apply perm_skip.
Qed.

(** distinct addresses cover their devices exactly once *)
Lemma groups_perm (ks : list string) (l : list DeviceInfo) :
  NoDup ks ->
  flat_map (fun k => List.filter (at_ip k) l) ks ≡ₚ
  List.filter (fun d => bool_decide (ip_address d ∈ ks)) l.
Proof.
  induction ks as [|k ks IH]; intros Hnd; cbn [flat_map].
  - induction l as [|d l IHl]; cbn; [done|].
    rewrite bool_decide_false by set_solver. exact IHl.
  - apply NoDup_cons in Hnd as [Hk Hnd].
    rewrite IH by exact Hnd.
    rewrite (List.filter_ext (fun d => bool_decide (ip_address d ∈ k :: ks))
                             (fun d => at_ip k d || bool_decide (ip_address d ∈ ks))).
    + symmetry. apply filter_disj_perm.
      intros d Hd. unfold at_ip in Hd. apply String.eqb_eq in Hd.
      apply bool_decide_false. set_solver.
    + intros d. unfold at_ip.
      destruct (String.eqb_spec (ip_address d) k) as [->|Hne]; cbn.
      * apply bool_decide_true. set_solver.
      * apply bool_decide_ext. set_solver.
Qed.

(** the update a device record gets from the probe results, if any *)
Lemma group_updates (P : gmap string PingResult) (k : string) (r : PingResult)
    (ds : list DeviceInfo) :
  P !! k = Some r ->
  map (fun device => (device, r))
      (List.filter (fun device => py_ne (current_reachable device) (is_reachable r))
                   (List.filter (at_ip k) ds)) =
  omap (fun d => match P !! ip_address d with
                 | Some r => if py_ne (current_reachable d) (is_reachable r) then Some (d, r) else None
                 | None => None
                 end) (List.filter (at_ip k) ds).
Proof.
  intros Hk. induction ds as [|d ds IH]; cbn [List.filter]; [done|].
  destruct (at_ip k d) eqn:Ea; [|exact IH].
  unfold at_ip in Ea. apply String.eqb_eq in Ea.
  simpl. rewrite Ea, Hk.
  destruct (py_ne (current_reachable d) (is_reachable r)); cbn [map]; by rewrite IH.
Qed.

Lemma reconcile_omap_perm (devices : list DeviceInfo) (P : gmap string PingResult) :
  reconcile devices P ≡ₚ
  omap (fun d => match P !! ip_address d with
                 | Some r => if py_ne (current_reachable d) (is_reachable r) then Some (d, r) else None
                 | None => None
                 end) devices.
Proof.
  set (f := fun d => match P !! ip_address d with
                     | Some r => if py_ne (current_reachable d) (is_reachable r) then Some (d, r) else None
                     | None => None
                     end).
  assert (Hflat : forall xs, (forall k r, In (k, r) xs -> P !! k = Some r) ->
    flat_map (fun '(ip, ping_result) =>
                let group := group_of (group_by_ip devices) ip in
                map (fun device => (device, ping_result))
                    (List.filter (fun device => py_ne (current_reachable device)
                                                      (is_reachable ping_result)) group)) xs =
    omap f (flat_map (fun k => List.filter (at_ip k) devices) (map fst xs))).
  { induction xs as [|[k r] xs IH]; intros Hxs; [done|]. cbn [flat_map map fst] in IH |- *.
    rewrite omap_app, IH by (intros k' r' H; apply Hxs; by right).
    rewrite group_by_ip_group, (group_updates P k r) by (apply Hxs; by left). done. }
  unfold reconcile, updates_needed. rewrite Hflat.
  - rewrite groups_perm by apply NoDup_fst_map_to_list.
    apply reflexive_eq. clear Hflat. induction devices as [|d ds IH]; cbn [List.filter]; [done|].
    case_bool_decide as Hin; rewrite !omap_cons, IH; [done|].
    assert (f d = None) as ->; [|done].
    subst f. cbn beta. destruct (P !! ip_address d) as [r|] eqn:Er; [|done].
    exfalso. apply Hin. apply list_elem_of_In.
    apply (in_map fst (map_to_list P) (ip_address d, r)).
    apply list_elem_of_In. by apply elem_of_map_to_list.
  - intros k r H. apply elem_of_map_to_list. by apply list_elem_of_In.
Qed.

Lemma unique_ips_elem (devices : list DeviceInfo) (d : DeviceInfo) :
  In d devices -> ip_address d ∈ Cycle.unique_ips devices.
Proof.
  intros Hd. destruct (unique_ips_fold devices [] (NoDup_nil_2)) as [_ H].
  unfold Cycle.unique_ips. apply H. right. exists d. split; [|done]. by apply list_elem_of_In.
Qed.

Lemma cycle_updates_reconcile (use_fping : bool) (fping_out : list string -> Fping.Outcome)
    (ping_out : string -> Ping.Outcome) (devices : list DeviceInfo) :
  Cycle.cycle_updates use_fping fping_out ping_out devices =
  reconcile devices (Probe.probe_all use_fping fping_out ping_out (Cycle.unique_ips devices)).
Proof. destruct devices; [destruct use_fping; vm_compute; reflexivity | reflexivity]. Qed.

Lemma monitor_cycle_requests (use_fping : bool) (get_page : nat -> Fetch.Response) (fuel : nat)
    (fping_out : list string -> Fping.Outcome) (ping_out : string -> Ping.Outcome)
    (reqs : list nat) (devices : list DeviceInfo) :
  Fetch.fetch_all_devices get_page fuel = (reqs, Some devices) ->
  Cycle.monitor_cycle use_fping get_page fuel fping_out ping_out =
    Some (Dispatch.update_device_batch (Cycle.cycle_updates use_fping fping_out ping_out devices)).
Proof.
  intros H. unfold Cycle.monitor_cycle. rewrite H. cbn [snd].
  by destruct (Cycle.cycle_updates use_fping fping_out ping_out devices).
Qed.

End ReconcileMultiset.

Section ReconcileCount.
Import Reconcile.

Lemma filter_length_perm {A} (q : A -> bool) (l1 l2 : list A) :
  l1 ≡ₚ l2 -> length (List.filter q l1) = length (List.filter q l2).
Proof.
  induction 1 as [|x l1 l2 _ IH|x y l|l1 l2 l3 _ IH1 _ IH2]; cbn.
  - done.
  - destruct (q x); cbn; by rewrite IH.
  - destruct (q x), (q y); cbn; done.
  - by rewrite IH1.
Qed.

(** the update of one record, as in [reconcile_omap_perm] *)
Definition record_update (P : gmap string PingResult) (d : DeviceInfo)
    : option (DeviceInfo * PingResult) :=
  match P !! ip_address d with
  | Some r => if py_ne (current_reachable d) (is_reachable r) then Some (d, r) else None
  | None => None
  end.

Lemma record_update_fst (P : gmap string PingResult) (d : DeviceInfo) u :
  record_update P d = Some u -> fst u = d.
Proof.
  unfold record_update. destruct (P !! ip_address d); [|done].
  destruct (py_ne _ _); [|done]. by intros [= <-].
Qed.

(** the updates of the records equal to [device] are those of its
    occurrences: one each when it has a changed result, none otherwise *)
Lemma omap_record_update_count (P : gmap string PingResult) (q : DeviceInfo * PingResult -> bool)
    (device : DeviceInfo) (devices : list DeviceInfo) :
  (forall u, q u = true -> fst u = device) ->
  length (List.filter q (omap (record_update P) devices)) =
  match record_update P device with
  | Some u => if q u then length (List.filter (fun d => bool_decide (d = device)) devices) else 0%nat
  | None => 0%nat
  end.
Proof.
  intros Hq. induction devices as [|d ds IH]; rewrite ?omap_cons; cbn [List.filter length].
  - by destruct (record_update P device) as [u|]; [destruct (q u)|].
  - case_bool_decide as Hd.
    + subst d. destruct (record_update P device) as [u|] eqn:Eu; [|exact IH].
      cbn [List.filter]. destruct (q u); cbn [length]; by rewrite IH.
    + destruct (record_update P d) as [u|] eqn:Eu; [|exact IH].
      cbn [List.filter]. destruct (q u) eqn:Equ; [|exact IH].
      exfalso. apply Hd. rewrite <- (Hq u Equ). symmetry. by apply (record_update_fst P).
Qed.

Lemma reconcile_count (devices : list DeviceInfo) (P : gmap string PingResult)
    (q : DeviceInfo * PingResult -> bool) (device : DeviceInfo) :
  (forall u, q u = true -> fst u = device) ->
  length (List.filter q (reconcile devices P)) =
  match record_update P device with
  | Some u => if q u then length (List.filter (fun d => bool_decide (d = device)) devices) else 0%nat
  | None => 0%nat
  end.
Proof.
  intros Hq. rewrite (filter_length_perm q _ _ (reconcile_omap_perm devices P)).
  apply omap_record_update_count, Hq.
Qed.

End ReconcileCount.

Section ReconcileTheoremC2.
Import Reconcile.

(** C2. A pending update (device, result) is emitted exactly for the
    fetched devices whose address has a probe result that differs from
    the last-known flag, and it is emitted once per occurrence of the
    record in the fetch (so once for a record fetched once), never
    twice: the number of updates for a record is the number of its
    occurrences when its address has a differing result, and zero
    otherwise. An unknown flag differs from both booleans, an equal
    boolean does not, and a device whose address has no probe result
    gets no update. *)
Theorem reconcile_emits_iff_changed (devices : list DeviceInfo)
    (all_ping_results : gmap string PingResult) (device : DeviceInfo) (ping_result : PingResult) :
  (In (device, ping_result) (reconcile devices all_ping_results) <->
     In device devices /\ all_ping_results !! ip_address device = Some ping_result /\
     py_ne (current_reachable device) (is_reachable ping_result) = true) /\
  length (List.filter (fun u => bool_decide (u = (device, ping_result)))
                      (reconcile devices all_ping_results)) =
    (if bool_decide (all_ping_results !! ip_address device = Some ping_result)
        && py_ne (current_reachable device) (is_reachable ping_result)
     then length (List.filter (fun d => bool_decide (d = device)) devices) else 0%nat) /\
  length (List.filter (fun u => bool_decide (fst u = device))
                      (reconcile devices all_ping_results)) =
    match all_ping_results !! ip_address device with
    | Some r => if py_ne (current_reachable device) (is_reachable r)
                then length (List.filter (fun d => bool_decide (d = device)) devices) else 0%nat
    | None => 0%nat
    end /\
  (forall b, py_ne None b = true /\ py_ne (Some b) b = false) /\
  (all_ping_results !! ip_address device = None ->
     ~ In (device, ping_result) (reconcile devices all_ping_results)).
Proof.
  split; [apply reconcile_In|]. split; [|split; [|split]].
  - rewrite (reconcile_count devices all_ping_results _ device)
      by (intros u Hu; apply bool_decide_eq_true in Hu; by subst u).
    unfold record_update.
    destruct (all_ping_results !! ip_address device) as [r|] eqn:Er.
    + destruct (decide (r = ping_result)) as [->|Hne].
      * rewrite bool_decide_true by done. cbn [andb].
        destruct (py_ne _ _); [|done]. by rewrite bool_decide_true.
      * rewrite bool_decide_false by congruence. cbn [andb].
        destruct (py_ne _ _); [|done]. rewrite bool_decide_false by congruence. done.
    + by rewrite bool_decide_false.
  - rewrite (reconcile_count devices all_ping_results _ device)
      by (intros u Hu; by apply bool_decide_eq_true in Hu).
    unfold record_update.
    destruct (all_ping_results !! ip_address device) as [r|]; [|done].
    destruct (py_ne _ _); [|done]. by rewrite bool_decide_true.
  - intros b. split; [done|]. cbn. by destruct b.
  - intros Hnone Hin. apply reconcile_In in Hin as (_ & Hlook & _). congruence.
Qed.

End ReconcileTheoremC2.

(** The pending updates of one reconciliation are, up to order, exactly
    one pair (record, result at its address) for each fetched record
    occurrence whose address has a probe result whose reachability
    differs from the record's last-known flag. *)
Theorem reconcile_as_multiset (devices : list DeviceInfo) (all_ping_results : gmap string PingResult) :
  Reconcile.reconcile devices all_ping_results ≡ₚ
  omap (fun d => match all_ping_results !! ip_address d with
                 | Some r => if Reconcile.py_ne (current_reachable d) (is_reachable r)
                             then Some (d, r) else None
                 | None => None
                 end) devices.
Proof. apply reconcile_omap_perm. Qed.

(** A cycle in fallback mode, on the devices its fetch returned: it PATCHes
    the updates of [update_device_batch], and these are, up to order, one
    pair (record, [fallback_ping] of its address) for each fetched record
    whose flag differs from that ping's reachability. *)
Theorem monitor_cycle_fallback (get_page : nat -> Fetch.Response) (fuel : nat)
    (fping_out : list string -> Fping.Outcome) (ping_out : string -> Ping.Outcome)
    (reqs : list nat) (devices : list DeviceInfo) :
  Fetch.fetch_all_devices get_page fuel = (reqs, Some devices) ->
  Cycle.monitor_cycle false get_page fuel fping_out ping_out =
    Some (Dispatch.update_device_batch (Cycle.cycle_updates false fping_out ping_out devices)) /\
  Cycle.cycle_updates false fping_out ping_out devices ≡ₚ
  omap (fun d => let r := Ping.fallback_ping (ip_address d) (ping_out (ip_address d)) in
                 if Reconcile.py_ne (current_reachable d) (is_reachable r)
                 then Some (d, r) else None) devices.
Proof.
  intros H. split; [by eapply monitor_cycle_requests|].
  rewrite cycle_updates_reconcile, reconcile_omap_perm.
  apply reflexive_eq, omap_ext_in. intros d Hd.
  rewrite probe_fallback_lookup, decide_True by (by apply unique_ips_elem). done.
Qed.

Lemma monitor_cycle_fallback_witness :
  Fetch.fetch_all_devices Sample.inventory_one 1 = ([0%nat], Some [Sample.device_x]) /\
  Cycle.monitor_cycle false Sample.inventory_one 1 (fun _ => Fping.Raised) (fun _ => Ping.Raised) =
    Some (Dispatch.update_device_batch
            (Cycle.cycle_updates false (fun _ => Fping.Raised) (fun _ => Ping.Raised) [Sample.device_x])) /\
  Cycle.cycle_updates false (fun _ => Fping.Raised) (fun _ => Ping.Raised) [Sample.device_x] ≡ₚ
  omap (fun d => let r := Ping.fallback_ping (ip_address d) ((fun _ => Ping.Raised) (ip_address d)) in
                 if Reconcile.py_ne (current_reachable d) (is_reachable r)
                 then Some (d, r) else None) [Sample.device_x].
Proof.
  assert (H : Fetch.fetch_all_devices Sample.inventory_one 1 = ([0%nat], Some [Sample.device_x]))
    by (vm_compute; reflexivity).
  split; [exact H|]. exact (monitor_cycle_fallback _ _ _ _ _ _ H).
Defined.

(** A cycle in fping mode whose fping calls all time out or raise: the
    updates it PATCHes are, up to order, one (record, unreachable) pair
    for each fetched record whose flag is not already [False] (known up
    or unknown). *)
Theorem monitor_cycle_fping_all_failed (get_page : nat -> Fetch.Response) (fuel : nat)
    (fping_out : list string -> Fping.Outcome) (ping_out : string -> Ping.Outcome)
    (reqs : list nat) (devices : list DeviceInfo) :
  Fetch.fetch_all_devices get_page fuel = (reqs, Some devices) ->
  (forall batch, fping_out batch = Fping.Raised \/ exists p, fping_out batch = Fping.TimedOut p) ->
  Cycle.monitor_cycle true get_page fuel fping_out ping_out =
    Some (Dispatch.update_device_batch (Cycle.cycle_updates true fping_out ping_out devices)) /\
  Cycle.cycle_updates true fping_out ping_out devices ≡ₚ
  omap (fun d => if decide (current_reachable d = Some false) then None
                 else Some (d, unreachable (ip_address d))) devices.
Proof.
  intros H Hfail. split; [by eapply monitor_cycle_requests|].
  rewrite cycle_updates_reconcile, reconcile_omap_perm.
  apply reflexive_eq, omap_ext_in. intros d Hd.
  rewrite probe_fping_failed_lookup, decide_True by (done || by apply unique_ips_elem).
  cbn [is_reachable unreachable Reconcile.py_ne].
  destruct (current_reachable d) as [[]|]; done.
Qed.

Lemma monitor_cycle_fping_all_failed_witness :
  Fetch.fetch_all_devices Sample.inventory_one 1 = ([0%nat], Some [Sample.device_x]) /\
  (forall batch, (fun _ : list string => Fping.Raised) batch = Fping.Raised \/
                 exists p, (fun _ : list string => Fping.Raised) batch = Fping.TimedOut p) /\
  Cycle.monitor_cycle true Sample.inventory_one 1 (fun _ => Fping.Raised) (fun _ => Ping.Raised) =
    Some (Dispatch.update_device_batch
            (Cycle.cycle_updates true (fun _ => Fping.Raised) (fun _ => Ping.Raised) [Sample.device_x])) /\
  Cycle.cycle_updates true (fun _ => Fping.Raised) (fun _ => Ping.Raised) [Sample.device_x] ≡ₚ
  omap (fun d => if decide (current_reachable d = Some false) then None
                 else Some (d, unreachable (ip_address d))) [Sample.device_x].
Proof.
  assert (H : Fetch.fetch_all_devices Sample.inventory_one 1 = ([0%nat], Some [Sample.device_x]))
    by (vm_compute; reflexivity).
  assert (Hf : forall batch, (fun _ : list string => Fping.Raised) batch = Fping.Raised \/
                 exists p, (fun _ : list string => Fping.Raised) batch = Fping.TimedOut p)
    by (intros batch; left; reflexivity).
  split; [exact H|]. split; [exact Hf|]. exact (monitor_cycle_fping_all_failed _ _ _ _ _ _ H Hf).
Defined.

(* ------------------------------------------------------------------ *)
(** ** The fping output as a map *)

Section ParseOutput.

Lemma parse_lines_lookup (lines : list string) (acc : gmap string PingResult) (k : string) :
  fold_left (fun results line =>
               match Fping.parse_line line with
               | Some r => <[pr_ip_address r := r]> results
               | None => results
               end) lines acc !! k =
  match last (List.filter (fun r => String.eqb (pr_ip_address r) k) (omap Fping.parse_line lines)) with
  | Some r => Some r
  | None => acc !! k
  end.
Proof.
  revert acc. induction lines as [|line lines IH]; intros acc; [done|].
  cbn [fold_left]. rewrite IH, omap_cons.
  destruct (Fping.parse_line line) as [r|]; [|done].
  cbn [List.filter]. destruct (String.eqb_spec (pr_ip_address r) k) as [<-|Hne].
  - rewrite last_cons. destruct (last _); [done|]. by rewrite lookup_insert_eq.
  - destruct (last _); [done|]. by rewrite lookup_insert_ne.
Qed.

End ParseOutput.

(** The parser of fping's output keeps, for each address, the last line
    that parses to that address: a later summary line for the same
    address overrides an earlier one, and skipped lines change nothing. *)
Theorem parse_output_last_wins (output k : string) :
  Fping.parse_output output !! k =
  last (List.filter (fun r => String.eqb (pr_ip_address r) k)
                    (omap Fping.parse_line (Py.split (ascii_of_nat 10) (Py.strip output)))).
Proof.
  unfold Fping.parse_output. rewrite parse_lines_lookup, lookup_empty.
  by destruct (last _).
Qed.

(** A batch whose fping call exited: the batch result keeps every parsed
    summary line (also for an address outside the batch), and adds an
    unreachable entry for each address of the batch that no line gave. *)
Theorem fping_batch_completed_results (batch : list string) (stderr k : string) :
  batch <> [] ->
  Fping.fping_batch batch (Fping.Completed stderr) !! k =
    match Fping.parse_output stderr !! k with
    | Some r => Some r
    | None => if decide (k ∈ batch) then Some (unreachable k) else None
    end.
Proof.
  intros Hne. destruct batch as [|a l]; [contradiction|].
  unfold Fping.fping_batch. apply mark_missing_lookup.
Qed.

Lemma fping_batch_completed_results_witness :
  ["10.0.0.1"; "10.0.0.3"] <> [] /\
  Fping.fping_batch ["10.0.0.1"; "10.0.0.3"] (Fping.Completed Sample.fping_two_of_three) !! "10.0.0.2" =
    match Fping.parse_output Sample.fping_two_of_three !! "10.0.0.2" with
    | Some r => Some r
    | None => if decide ("10.0.0.2" ∈ ["10.0.0.1"; "10.0.0.3"]) then Some (unreachable "10.0.0.2") else None
    end.
Proof.
  assert (H : ["10.0.0.1"; "10.0.0.3"] <> []) by discriminate.
  split; [exact H|]. exact (fping_batch_completed_results _ _ _ H).
Defined.

(* ------------------------------------------------------------------ *)
(** ** The latency of a successful ping *)

Section PingSummary.

Lemma string_app_assoc (s t u : string) : (s +:+ t) +:+ u = s +:+ (t +:+ u).
Proof.
  induction s as [|c s IH]; [done|]. rewrite !string_app_cons, IH. done.
Qed.

Lemma strip_lit_length (lit x g : string) :
  Re.strip_lit lit x = Some g -> String.length x = (String.length lit + String.length g)%nat.
Proof.
  revert x. induction lit as [|l lit IH]; intros x H; cbn [Re.strip_lit] in H.
  - by inversion H.
  - destruct x as [|c x]; [discriminate H|].
    destruct (Ascii.eqb c l); [|discriminate H]. cbn. by rewrite (IH x H).
Qed.

(** a mismatch inside the text stays a mismatch when the text grows *)
Lemma strip_lit_none_app (lit x y : string) :
  Re.strip_lit lit x = None -> (String.length lit <= String.length x)%nat ->
  Re.strip_lit lit (x +:+ y) = None.
Proof.
  revert x. induction lit as [|l lit IH]; intros x H Hlen; cbn [Re.strip_lit] in H |- *.
  - discriminate H.
  - destruct x as [|c x]; [cbn in Hlen; lia|].
    rewrite string_app_cons. destruct (Ascii.eqb c l); [|done].
    apply IH; [exact H | cbn in Hlen; lia].
Qed.

Lemma strip_lit_self (lit t : string) : Re.strip_lit lit (lit +:+ t) = Some t.
Proof.
  induction lit as [|l lit IH]; [done|].
  rewrite string_app_cons. cbn [Re.strip_lit]. by rewrite Ascii.eqb_refl.
Qed.

(** the positions before the first ["min/avg/max"] never match *)
Lemma search_ping_skip (pre t : string) :
  Re.search (Re.strip_lit "min/avg/max") (pre +:+ "min/avg/max") = Some "" ->
  Re.search Re.ping_latency_at (pre +:+ "min/avg/max" +:+ t) =
  Re.search Re.ping_latency_at ("min/avg/max" +:+ t).
Proof.
  induction pre as [|c pre IH]; intros H; [done|].
  rewrite string_app_cons in H |- *. cbn [Re.search] in H.
  destruct (Re.strip_lit "min/avg/max" (String c (pre +:+ "min/avg/max"))) as [g|] eqn:Eg.
  - inversion H; subst g. apply strip_lit_length in Eg.
    cbn [String.length] in Eg. rewrite string_length_app in Eg. cbn in Eg. lia.
  - rewrite search_cons_none; [by apply IH|].
    unfold Re.ping_latency_at.
    replace (String c (pre +:+ "min/avg/max" +:+ t))
      with (String c (pre +:+ "min/avg/max") +:+ t)
      by (rewrite string_app_cons, string_app_assoc; done).
    rewrite strip_lit_none_app; [done | exact Eg |].
    cbn [String.length]. rewrite string_length_app. cbn. lia.
Qed.

Lemma lazy_eq_tail_skip (label x : string) :
  Py.all_chars (fun c => negb (Ascii.eqb c "=") && negb (Ascii.eqb c (ascii_of_nat 10))) label = true ->
  Re.lazy_eq_tail (label +:+ x) = Re.lazy_eq_tail x.
Proof.
  induction label as [|c label IH]; intros H; [done|].
  cbn [Py.all_chars] in H. apply andb_prop in H as [Hc H].
  apply andb_prop in Hc as [He Hn]. apply negb_true_iff in He, Hn.
  rewrite string_app_cons. cbn [Re.lazy_eq_tail]. rewrite He, Hn. by apply IH.
Qed.

End PingSummary.

(** A ping that exits with status 0 and prints a summary
    ["... min/avg/max<label>= a/b/c..."] (Linux: ["rtt min/avg/max/mdev =
    a/b/c/d ms"], BSD: ["round-trip min/avg/max/stddev = ..."]), where
    the summary holds the first ["min/avg/max"] of the output and the
    label has no ['='] nor line break, is classified reachable with the
    middle value [b] as latency. *)
Theorem fallback_ping_summary_latency (ip pre label a b rest : string) :
  Re.search (Re.strip_lit "min/avg/max") (pre +:+ "min/avg/max") = Some "" ->
  Py.all_chars (fun c => negb (Ascii.eqb c "=") && negb (Ascii.eqb c (ascii_of_nat 10))) label = true ->
  a <> "" -> Py.all_chars Py.is_num_char a = true ->
  b <> "" -> Py.all_chars Py.is_num_char b = true -> Py.float b = Some b ->
  Ping.fallback_ping ip
    (Ping.Completed 0 (pre +:+ "min/avg/max" +:+ label +:+ "= " +:+ a +:+ "/" +:+ b +:+ "/" +:+ rest)) =
  {| pr_ip_address := ip; is_reachable := true; latency_ms := Some b |}.
Proof.
  intros Hpre Hlabel Ha Hna Hb Hnb Hf.
  unfold Ping.fallback_ping, Ping.try_body. cbn [Z.eqb].
  rewrite search_ping_skip by exact Hpre.
  rewrite (search_hit _ _ b); [by rewrite Hf|].
  unfold Re.ping_latency_at. rewrite strip_lit_self, lazy_eq_tail_skip by exact Hlabel.
  rewrite ?string_app_cons, ?string_app_nil. cbn [Re.lazy_eq_tail].
  rewrite Ascii.eqb_refl. rewrite triple_tail_summary by done. done.
Qed.

Lemma fallback_ping_summary_latency_witness :
  Ping.fallback_ping "10.0.0.1"
    (Ping.Completed 0 (("64 bytes from 10.0.0.1: icmp_seq=1 ttl=64 time=0.1 ms" +:+ Sample.nl +:+
                        "3 packets transmitted, 3 received, 0% packet loss" +:+ Sample.nl +:+ "rtt ")
                       +:+ "min/avg/max" +:+ "/mdev " +:+ "= " +:+ "0.1" +:+ "/" +:+ "0.2" +:+ "/" +:+
                       "0.3/0.0 ms")) =
  {| pr_ip_address := "10.0.0.1"; is_reachable := true; latency_ms := Some "0.2" |}.
Proof.
  apply fallback_ping_summary_latency; vm_compute; first [reflexivity | discriminate].
Defined.
